(** * totally_reset_cursor.py: the safety-gated path remover

    A shallow embedding of [src/totally_reset_cursor.py] and the properties
    of its path safety gate ([is_safe_to_delete]), its guarded remover
    ([remove_path]) and its two file writers.

    Paths are [pathlib] paths of the POSIX flavour (the Linux and macOS
    tables of the script): a root and a list of components, compared
    component by component and never resolved against the file system.
    Every [print] of the script is an event of type [message]; the
    operating system (file system, clock, random source) is an interface
    [OS] with one executable instance, [MemOS]. *)

From Stdlib Require Import List String Ascii Strings.Byte Bool ZArith Lia.
From Stdlib Require Import Numbers.DecimalString Floats.SpecFloat.
Import ListNotations.
Open Scope list_scope.
Open Scope string_scope.

(* ------------------------------------------------------------------ *)
(** * Python exceptions *)
(* ------------------------------------------------------------------ *)

(** The classes of errors the script names in its handlers, with the
    built-in classes the library calls of the script raise.  All of them
    derive from [Exception]: the asynchronous [KeyboardInterrupt] is the
    user stopping the whole run and is no error of an operation. *)
Inductive exn_class : Type :=
  | Exception
  | ValueError
  | TypeError
  | OverflowError
  | OSError
  | FileNotFoundError
  | PermissionError
  | FileExistsError
  | NotADirectoryError
  | IsADirectoryError.

Definition exn_class_eqb (a b : exn_class) : bool :=
  match a, b with
  | Exception, Exception | ValueError, ValueError | TypeError, TypeError
  | OverflowError, OverflowError | OSError, OSError | FileNotFoundError, FileNotFoundError
  | PermissionError, PermissionError | FileExistsError, FileExistsError
  | NotADirectoryError, NotADirectoryError
  | IsADirectoryError, IsADirectoryError => true
  | _, _ => false
  end.

(** The direct base class ([__bases__]) inside this hierarchy. *)
Definition base_class (c : exn_class) : option exn_class :=
  match c with
  | Exception => None
  | ValueError | TypeError | OSError => Some Exception
  (* through [ArithmeticError], which no handler of the script names *)
  | OverflowError => Some Exception
  | FileNotFoundError | PermissionError | FileExistsError
  | NotADirectoryError | IsADirectoryError => Some OSError
  end.

Fixpoint issubclass_fuel (fuel : nat) (c d : exn_class) : bool :=
  exn_class_eqb c d ||
  match fuel with
  | O => false
  | S fuel' =>
      match base_class c with
      | None => false
      | Some b => issubclass_fuel fuel' b d
      end
  end.

(** The hierarchy has depth 2. *)
Definition issubclass (c d : exn_class) : bool := issubclass_fuel 2 c d.

(** A raised exception: its class and its text ([str(e)]). *)
Record exn : Type := mkExn { exn_type : exn_class; exn_text : string }.

Definition isinstance (e : exn) (c : exn_class) : bool :=
  issubclass (exn_type e) c.

(** The result of a call that may raise. *)
Definition result (A : Type) : Type := (exn + A)%type.

Definition ok {A} (a : A) : result A := inr a.
Definition raise {A} (e : exn) : result A := inl e.

Definition rbind {A B} (r : result A) (k : A -> result B) : result B :=
  match r with
  | inl e => inl e
  | inr a => k a
  end.

(* ------------------------------------------------------------------ *)
(** * pathlib, POSIX flavour *)
(* ------------------------------------------------------------------ *)

Module pathlib.

(** A pure path: its root ([""], ["/"] or ["//"]) and the components
    after the root.  POSIX paths have no drive. *)
Record Path : Type := mkPath { root : string; tail : list string }.

Definition sep : ascii := "/"%char.

(** [str.split(sep)] for a one-character separator. *)
Fixpoint split (c : ascii) (s : string) : list string :=
  match s with
  | EmptyString => [EmptyString]
  | String a s' =>
      if Ascii.eqb a c then EmptyString :: split c s'
      else match split c s' with
           | [] => [String a EmptyString]
           | x :: xs => String a x :: xs
           end
  end.

(** [str.lstrip(sep)]. *)
Fixpoint lstrip (c : ascii) (s : string) : string :=
  match s with
  | EmptyString => EmptyString
  | String a s' => if Ascii.eqb a c then lstrip c s' else s
  end.

(** [splitroot]: exactly two leading slashes are kept as the root ["//"],
    any other number of leading slashes is the root ["/"]. *)
Definition splitroot (part : string) : string * string :=
  match part with
  | String a _ =>
      if Ascii.eqb a sep then
        let stripped_part := lstrip sep part in
        if Nat.eqb (String.length part - String.length stripped_part) 2
        then ("//", stripped_part)
        else ("/", stripped_part)
      else ("", part)
  | EmptyString => ("", part)
  end.

(** The components kept by the parser: not empty and not ["."]. *)
Definition keep_part (x : string) : bool :=
  negb (x =? "") && negb (x =? ".").

(** [Path(s)]: the parser of the constructor.  [".."] is kept as it is. *)
Definition Path_ (s : string) : Path :=
  let (r, rel) := splitroot s in
  mkPath r (filter keep_part (split sep rel)).

(** [self / s] ([joinpath]): an absolute right operand replaces the left
    one, a relative one is appended. *)
Definition joinpath (self : Path) (s : string) : Path :=
  let other := Path_ s in
  if root other =? "" then mkPath (root self) (tail self ++ tail other)%list
  else other.

(** [str(p)]. *)
Definition str (p : Path) : string :=
  let s := root p ++ String.concat "/" (tail p) in
  if s =? "" then "." else s.

Fixpoint list_eqb (l m : list string) : bool :=
  match l, m with
  | [], [] => true
  | x :: l', y :: m' => (x =? y) && list_eqb l' m'
  | _, _ => false
  end.

(** [p == q]: same flavour, same parts. *)
Definition eqb (p q : Path) : bool :=
  (root p =? root q) && list_eqb (tail p) (tail q).

(** [p.parent]: the path without its last component; the root and the
    empty path are their own parents. *)
Definition parent (p : Path) : Path :=
  match tail p with
  | [] => p
  | _ :: _ => mkPath (root p) (removelast (tail p))
  end.

(** The list compared by [relative_to]: drive, root, then components for
    a rooted path, the components alone otherwise. *)
Definition abs_parts (p : Path) : list string :=
  if root p =? "" then tail p else "" :: root p :: tail p.

(** [self.relative_to(other)]: raises [ValueError] unless [other]'s parts
    are a prefix of [self]'s.  Purely lexical: [".."] is a component like
    any other. *)
Definition relative_to (self other : Path) : result Path :=
  let to_abs_parts := abs_parts other in
  let n := List.length to_abs_parts in
  if (if Nat.eqb n 0 then negb (root self =? "")
      else negb (list_eqb (firstn n (abs_parts self)) to_abs_parts))
  then raise (mkExn ValueError
                (str self ++ " is not in the subpath of " ++ str other))
  else ok (mkPath (if Nat.eqb n 1 then root self else "")
                  (skipn n (abs_parts self))).

(** [self.is_relative_to(other)]: [relative_to] does not raise (the only
    exception it raises is the [ValueError] above). *)
Definition is_relative_to (self other : Path) : bool :=
  match relative_to self other with
  | inr _ => true
  | inl _ => false
  end.

(** A path as the parser builds it. *)
Definition wf_part (x : string) : bool :=
  keep_part x && Nat.eqb (List.length (split sep x)) 1.

Definition wf (p : Path) : bool :=
  ((root p =? "") || (root p =? "/") || (root p =? "//"))
  && forallb wf_part (tail p).

(** [os.path.normpath] on the components: a [".."] removes the component
    before it and is dropped at the root.  The script never normalises a
    path; this tells where a candidate with [".."] components points. *)
Definition normpath_step (rooted : bool) (new_comps : list string)
    (comp : string) : list string :=
  if negb (comp =? "..") then comp :: new_comps
  else
    match new_comps with
    | [] => if rooted then [] else [comp]
    | last :: rest => if last =? ".." then comp :: new_comps else rest
    end.

Definition normpath (p : Path) : Path :=
  mkPath (root p)
    (rev (fold_left (normpath_step (negb (root p =? ""))) (tail p) [])).

End pathlib.

Import pathlib.
Notation "p // s" := (joinpath p s) (at level 40, left associativity).

(* ------------------------------------------------------------------ *)
(** * Console output and the monad of the script *)
(* ------------------------------------------------------------------ *)

(** One constructor per [print] of the functions modelled below, with the
    values the f-string interpolates (colours and emoji left out). *)
Inductive message : Type :=
  (* is_safe_to_delete *)
  | Skipping_unsafe_outside_home (p : Path)
  | Skipping_unexpected_location (p : Path)
  | Skipping_path_check_error (p : Path)
  | Error_during_safety_check (p : Path) (e : exn)
  (* remove_path *)
  | Deleted_file (p : Path)
  | Deleted_directory (p : Path)
  | Skipping_non_file_dir (p : Path)
  | Path_already_gone (p : Path)
  | Permission_denied_deleting (p : Path)
  | OS_error_deleting (p : Path) (e : exn)
  | Unexpected_error_deleting (p : Path) (e : exn)
  (* create_file_with_content *)
  | Created (description : string) (p : Path)
  | Permission_denied_creating (p : Path)
  | OS_error_creating (p : Path) (e : exn)
  | Unexpected_error_creating (description : string) (p : Path) (e : exn)
  (* create_new_trial_info *)
  | Failed_trial_info (p : Path) (e : exn)
  (* reset_cursor: section headers and notices *)
  | Line (text : string).

(** The deletion outcomes of the specification.  [remove_path] returns
    nothing: what it did with a candidate is what it printed about it. *)
Inductive failure : Type :=
  | already_gone
  | permission_denied
  | os_failure (reason : exn)
  | unexpected (reason : exn).

Inductive outcome : Type :=
  | deleted
  | skipped_unsafe
  | skipped_absent
  | skipped_other_type
  | failed (f : failure).

Definition outcome_of (out : list message) : option outcome :=
  match out with
  | [] => Some skipped_absent
  | [Skipping_unsafe_outside_home _] | [Skipping_unexpected_location _]
  | [Skipping_path_check_error _] | [Error_during_safety_check _ _] =>
      Some skipped_unsafe
  | [Deleted_file _] | [Deleted_directory _] => Some deleted
  | [Skipping_non_file_dir _] => Some skipped_other_type
  | [Path_already_gone _] => Some (failed already_gone)
  | [Permission_denied_deleting _] => Some (failed permission_denied)
  | [OS_error_deleting _ e] => Some (failed (os_failure e))
  | [Unexpected_error_deleting _ e] => Some (failed (unexpected e))
  | _ => None
  end.

Class Monad (m : Type -> Type) : Type := {
  ret : forall {A}, A -> m A;
  bind : forall {A B}, m A -> (A -> m B) -> m B
}.

Declare Scope py_scope.
Delimit Scope py_scope with py.
Notation "x <- c ;; k" := (bind c (fun x => k))
  (at level 61, c at next level, right associativity) : py_scope.
Notation "c ;; k" := (bind c (fun _ => k))
  (at level 61, right associativity) : py_scope.
Open Scope py_scope.

(** A computation that prints and may raise, and touches nothing else:
    what it printed (also when it raises) and its result. *)
Definition Py (A : Type) : Type := (list message * result A)%type.

Definition py_bind {A B} (c : Py A) (k : A -> Py B) : Py B :=
  match c with
  | (out, inl e) => (out, inl e)
  | (out, inr a) => let (out', r) := k a in ((out ++ out')%list, r)
  end.

#[global] Instance Monad_Py : Monad Py := {
  ret := fun A a => ([], inr a);
  bind := fun A B => py_bind
}.

Definition print (m : message) : Py unit := ([m], inr tt).

Definition lift_result {A} (r : result A) : Py A := ([], r).

(** The first [except C] clause with [isinstance(e, C)]. *)
Fixpoint find_handler {H : Type} (e : exn) (handlers : list (exn_class * H))
  : option H :=
  match handlers with
  | [] => None
  | (c, h) :: rest => if isinstance e c then Some h else find_handler e rest
  end.

(** [try: body  except C1 as e: h1  except C2 as e: h2 ...]: an exception
    no clause matches goes on to the caller. *)
Definition try_except {A} (body : Py A)
    (handlers : list (exn_class * (exn -> Py A))) : Py A :=
  match body with
  | (out, inr a) => (out, inr a)
  | (out, inl e) =>
      match find_handler e handlers with
      | Some h => let (out', r) := h e in ((out ++ out')%list, r)
      | None => (out, inl e)
      end
  end.

(* ------------------------------------------------------------------ *)
(** * The path safety gate *)
(* ------------------------------------------------------------------ *)

Inductive system : Type := Windows | Darwin | Linux.

(** [EXPECTED_BASES] (the backslash of the Windows entries is the
    character 92). *)
Definition EXPECTED_BASES (s : system) : list string :=
  match s with
  | Windows =>
      [ "AppData" ++ String (ascii_of_nat 92) "Roaming";
        "AppData" ++ String (ascii_of_nat 92) "Local" ]
  | Darwin =>
      [ "Library/Application Support"; "Library/Caches";
        "Library/Preferences"; "Library/Saved Application State";
        "Library/HTTPStorages" ]
  | Linux => [ ".config"; ".cache"; ".local/share" ]
  end.

(** [s.startswith(base)]. *)
Definition startswith (s base : string) : bool := String.prefix base s.

(** [is_safe_to_delete]: each early [return False] is the value [false]
    of its branch, falling out of the [try] is the final [return True]. *)
Definition is_safe_to_delete (path_to_delete home_dir : Path)
    (allowed_bases : list string) : Py bool :=
  try_except
    (if negb (is_relative_to path_to_delete home_dir) then
       print (Skipping_unsafe_outside_home path_to_delete) ;;
       ret false
     else
       relative_path <- lift_result (relative_to path_to_delete home_dir) ;;
       if negb (existsb (fun base => startswith (str relative_path) base)
                        allowed_bases)
       then
         if negb (eqb (parent relative_path) (Path_ ".")) then
           print (Skipping_unexpected_location path_to_delete) ;;
           ret false
         else ret true
       else ret true)
    [ (ValueError, fun _ =>
         print (Skipping_path_check_error path_to_delete) ;; ret false);
      (Exception, fun e =>
         print (Error_during_safety_check path_to_delete e) ;; ret false) ].

(** The verdict of the gate; a raised exception (there is none, see
    [is_safe_to_delete_returns]) would count as not safe. *)
Definition verdict (c : Py bool) : bool :=
  match snd c with
  | inr b => b
  | inl _ => false
  end.

Definition home_u : Path := Path_ "/home/u".

(* ------------------------------------------------------------------ *)
(** * Floats, UUIDs, JSON and datetimes *)
(* ------------------------------------------------------------------ *)

(** Python's [float] is IEEE 754 binary64, rounding to nearest, ties to
    even. *)
Module float64.

Definition prec : Z := 53.
Definition emax : Z := 1024.

Definition float : Type := spec_float.

(** [float(n)] for an integer, correctly rounded. *)
Definition of_int (n : Z) : float := binary_normalize prec emax n 0 false.

Definition add (x y : float) : float := SFadd prec emax x y.
Definition mul (x y : float) : float := SFmul prec emax x y.
Definition div (x y : float) : float := SFdiv prec emax x y.

(** [int(x)]: truncation towards zero. *)
Definition to_int (x : float) : result Z :=
  match x with
  | S754_zero _ => ok 0%Z
  | S754_finite s m e =>
      let magnitude := if (0 <=? e)%Z then (Zpos m * 2 ^ e)%Z
                       else (Zpos m / 2 ^ (- e))%Z in
      ok (if s then (- magnitude)%Z else magnitude)
  | S754_infinity _ =>
      raise (mkExn OverflowError "cannot convert float infinity to integer")
  | S754_nan =>
      raise (mkExn ValueError "cannot convert float NaN to integer")
  end.

(** The two steps of a correctly rounded result, used to state what the
    operations compute: the mantissa [m] with its [delta] lowest bits
    shifted out (the bits shifted out are kept aside), and that mantissa
    rounded to nearest, ties to even. *)
Definition shifted (m : Z) (l : location) (delta : Z) : shr_record :=
  match delta with
  | Zpos p => iter_pos shr_1 p (shr_record_of_loc m l)
  | _ => shr_record_of_loc m l
  end.

Definition rounded (m : Z) (l : location) (delta : Z) : Z :=
  let mrs := shifted m l delta in
  round_nearest_even (shr_m mrs) (loc_of_shr_record mrs).

End float64.

(** [uuid.UUID]: the 128-bit integer of a UUID and its text. *)
Module uuid.

Definition hex_digit (d : Z) : ascii :=
  if (d <? 10)%Z then ascii_of_nat (48 + Z.to_nat d)
  else ascii_of_nat (87 + Z.to_nat d).

(** The last [n] hexadecimal digits of [x], most significant first. *)
Fixpoint hex_digits (n : nat) (x : Z) : string :=
  match n with
  | O => ""
  | S n' => hex_digits n' (x / 16) ++ String (hex_digit (x mod 16)) ""
  end.

(** ['%032x' % x] for [0 <= x < 2 ** 128]. *)
Definition format_032x (x : Z) : string := hex_digits 32 x.

(** [int.from_bytes(b)], big endian. *)
Definition int_from_bytes (b : list byte) : Z :=
  fold_left (fun acc x => (acc * 256 + Z.of_N (Byte.to_N x))%Z) b 0%Z.

(** [UUID(bytes=b, version=4)]: the variant and version bits are
    overwritten, the other 122 bits are the given ones. *)
Definition UUID_bytes_version4 (b : list byte) : result Z :=
  if negb (Nat.eqb (List.length b) 16)
  then raise (mkExn ValueError "bytes is not a 16-char string")
  else
    let int := int_from_bytes b in
    let int := Z.land int (Z.lnot (Z.shiftl 49152 48)) in
    let int := Z.lor int (Z.shiftl 32768 48) in
    let int := Z.land int (Z.lnot (Z.shiftl 61440 64)) in
    let int := Z.lor int (Z.shiftl 4 76) in
    ok int.

(** [str(u)]: the digits in groups of 8, 4, 4, 4 and 12. *)
Definition str (int : Z) : string :=
  let hex := format_032x int in
  substring 0 8 hex ++ "-" ++ substring 8 4 hex ++ "-" ++
  substring 12 4 hex ++ "-" ++ substring 16 4 hex ++ "-" ++
  substring 20 12 hex.

End uuid.

(** [json.dumps(new_trial_data, indent=4)] for the one dictionary the
    script serialises. *)
Module json.

Definition newline : string := String (ascii_of_nat 10) "".
Definition quote : string := String (ascii_of_nat 34) "".

(** An integer, in decimal. *)
Definition dumps_int (n : Z) : string := NilZero.string_of_int (Z.to_int n).

Definition dumps_bool (b : bool) : string := if b then "true" else "false".

(** A string between quotes.  The strings serialised here are field
    names and the text of a UUID (hexadecimal digits and dashes), which
    the encoder leaves as they are. *)
Definition dumps_str (s : string) : string := quote ++ s ++ quote.

(** An object with [indent=4]: one ["key": value] per line, in the order
    of insertion. *)
Definition dumps_object (items : list (string * string)) : string :=
  match items with
  | [] => "{}"
  | _ =>
      "{" ++ newline ++ "    " ++
      String.concat ("," ++ newline ++ "    ")
        (map (fun kv => dumps_str (fst kv) ++ ": " ++ snd kv) items) ++
      newline ++ "}"
  end.

End json.

(** The dictionary [new_trial_data]. *)
Record trial_data : Type := {
  trialStartTimestamp : Z;
  trialEndTimestamp : Z;
  hasUsedTrial : bool;
  machineId : string
}.

Definition json_dumps_indent4 (d : trial_data) : string :=
  json.dumps_object
    [ ("trialStartTimestamp", json.dumps_int (trialStartTimestamp d));
      ("trialEndTimestamp", json.dumps_int (trialEndTimestamp d));
      ("hasUsedTrial", json.dumps_bool (hasUsedTrial d));
      ("machineId", json.dumps_str (machineId d)) ].

(** A naive [datetime]: the reading of a wall clock.  [wall] counts the
    seconds of that reading since 1970-01-01 00:00:00 (every day has
    86400 of them), [microsecond] is in [0, 10 ** 6) and [fold] tells the
    second of two equal readings when the clock was set back. *)
Record datetime : Type := mkDatetime {
  wall : Z;
  microsecond : Z;
  fold : bool
}.

(** 0001-01-01 00:00:00 and 9999-12-31 23:59:59. *)
Definition datetime_min_wall : Z := -62135596800.
Definition datetime_max_wall : Z := 253402300799.

(** [d + timedelta(days=n)]: exact on the calendar, the fold is reset. *)
Definition datetime_add_days (d : datetime) (n : Z) : result datetime :=
  let w := (wall d + n * 86400)%Z in
  if ((datetime_min_wall <=? w) && (w <=? datetime_max_wall))%Z
  then ok (mkDatetime w (microsecond d) false)
  else raise (mkExn OverflowError "date value out of range").

Definition max_fold_seconds : Z := 24 * 3600.

(** [datetime._mktime]: the seconds since the epoch of a wall-clock
    reading, found by solving [t = local(u)] for [u]. *)
Definition datetime_mktime (local : Z -> Z) (self : datetime) : Z :=
  let t := wall self in
  let a := (local t - t)%Z in
  let u1 := (t - a)%Z in
  let t1 := local u1 in
  let found_b :=
    if (t1 =? t)%Z then
      let u2 := (u1 + (if fold self then max_fold_seconds
                       else - max_fold_seconds))%Z in
      let b := (local u2 - u2)%Z in
      if (a =? b)%Z then inl u1 else inr b
    else inr (t1 - u1)%Z in
  match found_b with
  | inl u => u
  | inr b =>
      let u2 := (t - b)%Z in
      let t2 := local u2 in
      if (t2 =? t)%Z then u2
      else if (t1 =? t)%Z then u1
      else if fold self then Z.min u1 u2 else Z.max u1 u2
  end.

(** [datetime.timestamp()] of a naive datetime:
    [_mktime() + microsecond / 1e6], in floats. *)
Definition datetime_timestamp (local : Z -> Z) (self : datetime)
  : float64.float :=
  float64.add (float64.of_int (datetime_mktime local self))
    (float64.div (float64.of_int (microsecond self))
                 (float64.of_int 1000000)).

(** [int(x * 1000)]. *)
Definition int_times_1000 (x : float64.float) : result Z :=
  float64.to_int (float64.mul x (float64.of_int 1000)).

(** The milliseconds the float arithmetic adds to [1000 * s] for the
    microsecond [us] when [s] lies between 2004-11-03 and 2038-01-19 (see
    [int_times_1000_timestamp]): they depend on [us] alone. *)
Definition frac_ms (us : Z) : Z :=
  match float64.div (float64.of_int us) (float64.of_int 1000000) with
  | S754_finite false mu eu =>
      (float64.rounded
         (float64.rounded (Zpos mu) loc_Exact (-22 - eu) * (1000 * 2 ^ 43))
         loc_Exact 53 / 4096)%Z
  | _ => 0%Z
  end.

(** [datetime.now()] from the reading of the system clock: the local
    wall clock at that instant, with the fold found by probing one day
    back. *)
Definition datetime_of_clock (local : Z -> Z) (ns : Z) : datetime :=
  let secs := (ns / 1000000000)%Z in
  let us := ((ns mod 1000000000) / 1000)%Z in
  let result_seconds := local secs in
  let probe_seconds := local (secs - max_fold_seconds)%Z in
  let transition := (result_seconds - probe_seconds - max_fold_seconds)%Z in
  let fold :=
    if (transition <? 0)%Z
    then (local (secs + transition) =? result_seconds)%Z
    else false in
  mkDatetime result_seconds us fold.

(* ------------------------------------------------------------------ *)
(** * The operating system *)
(* ------------------------------------------------------------------ *)

(** The calls the script makes on the file system, as functions of a
    world [W].  The tests read the world; the four mutations return the
    world they leave behind, also when they raise ([shutil.rmtree] may
    have removed part of a tree before it fails).  Nothing relates the
    results of different calls: a path that exists may be gone when it
    is unlinked. *)
Class OS (W : Type) : Type := {
  (** [Path.exists()]: it raises the error of [stat] when that error is
      none of those that mean absence (an ancestor that may not be
      searched gives [PermissionError]) *)
  exists_ : Path -> W -> result bool;
  (** [Path.is_file()], [Path.is_symlink()], [Path.is_dir()], which
      raise in the same way *)
  is_file : Path -> W -> result bool;
  is_symlink : Path -> W -> result bool;
  is_dir : Path -> W -> result bool;
  (** [Path.unlink()] *)
  unlink : Path -> W -> W * result unit;
  (** [shutil.rmtree(path, ignore_errors=False)] *)
  rmtree : Path -> W -> W * result unit;
  (** [Path.mkdir(parents=True, exist_ok=True)] *)
  mkdir_parents : Path -> W -> W * result unit;
  (** [Path.write_text(content, encoding='utf-8')] *)
  write_text : Path -> string -> W -> W * result unit;
  (** [os.urandom(n)] *)
  urandom : nat -> W -> W * list byte;
  (** the system clock, in nanoseconds since the epoch *)
  clock_ns : W -> W * Z;
  (** [time.localtime(u)] as a count of seconds: the wall-clock reading
      of the local time zone at [u] seconds after the epoch, counted in
      seconds since 1970-01-01 00:00:00 on the wall clock *)
  localtime : Z -> W -> Z
}.

(** A computation of the script: it reads and changes the world, prints,
    and returns or raises. *)
Definition M (W A : Type) : Type := W -> W * Py A.

Definition m_bind {W A B} (c : M W A) (k : A -> M W B) : M W B :=
  fun w =>
    match c w with
    | (w', (out, inl e)) => (w', (out, inl e))
    | (w', (out, inr a)) =>
        match k a w' with
        | (w'', (out', r)) => (w'', ((out ++ out')%list, r))
        end
    end.

#[global] Instance Monad_M (W : Type) : Monad (M W) := {
  ret := fun A a w => (w, ([], inr a));
  bind := fun A B => m_bind
}.

(** A computation that only prints. *)
Definition lift_py {W A} (c : Py A) : M W A := fun w => (w, c).

(** A test of the world. *)
Definition test {W A} (q : W -> result A) : M W A :=
  fun w => (w, ([], q w)).

(** A mutation of the world. *)
Definition mutate {W A} (f : W -> W * result A) : M W A :=
  fun w => let (w', r) := f w in (w', ([], r)).

(** [try ... except ...] around a computation on the world: the handler
    starts in the world the body left. *)
Definition m_try_except {W A} (body : M W A)
    (handlers : list (exn_class * (exn -> M W A))) : M W A :=
  fun w =>
    match body w with
    | (w', (out, inr a)) => (w', (out, inr a))
    | (w', (out, inl e)) =>
        match find_handler e handlers with
        | Some h =>
            match h e w' with
            | (w'', (out', r)) => (w'', ((out ++ out')%list, r))
            end
        | None => (w', (out, inl e))
        end
    end.

(** [for x in l: body(x)]: an exception of one round ends the loop. *)
Fixpoint for_each {W A} (l : list A) (body : A -> M W unit) : M W unit :=
  match l with
  | [] => ret tt
  | x :: l' => body x ;; for_each l' body
  end.

(** The failure an exception raised during the deletion is reported as:
    the first [except] clause of [remove_path] whose class it belongs to. *)
Definition classify (e : exn) : failure :=
  if isinstance e FileNotFoundError then already_gone
  else if isinstance e PermissionError then permission_denied
  else if isinstance e OSError then os_failure e
  else unexpected e.

(** The line printed for a failure. *)
Definition report (p : Path) (e : exn) : message :=
  match classify e with
  | already_gone => Path_already_gone p
  | permission_denied => Permission_denied_deleting p
  | os_failure r => OS_error_deleting p r
  | unexpected r => Unexpected_error_deleting p r
  end.

(** The line [create_file_with_content] prints for an exception: the
    first of its [except] clauses the exception belongs to. *)
Definition creation_report (description : string) (p : Path) (e : exn)
  : message :=
  if isinstance e PermissionError then Permission_denied_creating p
  else if isinstance e OSError then OS_error_creating p e
  else Unexpected_error_creating description p e.

Section Script.

Context {W : Type} `{OS W}.

(** The body of the [try] of [remove_path]: the dispatch on the type of
    the path and the deletion.  [a or b] evaluates [b] only when [a] is
    false. *)
Definition type_dispatch (path_to_delete : Path) : M W unit :=
  f <- test (is_file path_to_delete) ;;
  file_or_link <- (if f then ret true
                   else test (is_symlink path_to_delete)) ;;
  if file_or_link then
    mutate (unlink path_to_delete) ;;
    lift_py (print (Deleted_file path_to_delete))
  else
    d <- test (is_dir path_to_delete) ;;
    if d then
      mutate (rmtree path_to_delete) ;;
      lift_py (print (Deleted_directory path_to_delete))
    else
      lift_py (print (Skipping_non_file_dir path_to_delete)).

(** The [except] clauses of [remove_path], in their order. *)
Definition deletion_handlers (path_to_delete : Path)
  : list (exn_class * (exn -> M W unit)) :=
  [ (FileNotFoundError, fun _ =>
       lift_py (print (Path_already_gone path_to_delete)));
    (PermissionError, fun _ =>
       lift_py (print (Permission_denied_deleting path_to_delete)));
    (OSError, fun e =>
       lift_py (print (OS_error_deleting path_to_delete e)));
    (Exception, fun e =>
       lift_py (print (Unexpected_error_deleting path_to_delete e))) ].

(** [remove_path].  A [Path] object is always true, so the first test of
    line 61 is the existence test alone; it stands before the [try], so
    what it raises leaves [remove_path]. *)
Definition remove_path (path_to_delete home_dir : Path)
    (allowed_bases : list string) : M W unit :=
  present <- test (exists_ path_to_delete) ;;
  if negb present then ret tt
  else
    safe <- lift_py (is_safe_to_delete path_to_delete home_dir allowed_bases) ;;
    if negb safe then ret tt
    else
      m_try_except (type_dispatch path_to_delete)
        (deletion_handlers path_to_delete).

(** [create_file_with_content]. *)
Definition create_file_with_content (path : Path) (content : string)
    (description : string) : M W unit :=
  m_try_except
    (mutate (mkdir_parents (parent path)) ;;
     mutate (write_text path content) ;;
     lift_py (print (Created description path)))
    [ (PermissionError, fun _ =>
         lift_py (print (Permission_denied_creating path)));
      (OSError, fun e =>
         lift_py (print (OS_error_creating path e)));
      (Exception, fun e =>
         lift_py (print (Unexpected_error_creating description path e))) ].

(** The tables [get_os_paths] returns. *)
Record os_paths : Type := {
  config_dirs : list Path;
  cache_dirs : list Path;
  state_files : list Path;
  machine_id_files : list Path;
  trial_file : option Path;
  allowed_bases : list string
}.

(** The deletion phase of [reset_cursor] (lines 298 to 309). *)
Definition deletion_phase (home_dir : Path) (paths : os_paths) : M W unit :=
  lift_py (print (Line "--- Removing Configuration Directories ---")) ;;
  for_each (config_dirs paths)
    (fun path => remove_path path home_dir (allowed_bases paths)) ;;
  lift_py (print (Line "--- Removing Cache Directories ---")) ;;
  for_each (cache_dirs paths)
    (fun path => remove_path path home_dir (allowed_bases paths)) ;;
  lift_py (print (Line "--- Removing State & Other Files ---")) ;;
  for_each (state_files paths)
    (fun path => remove_path path home_dir (allowed_bases paths)).

(** [uuid.uuid4()]: sixteen bytes of the system's random source. *)
Definition uuid4 : M W Z :=
  b <- mutate (fun w => let (w', b) := urandom 16 w in (w', ok b)) ;;
  lift_py (lift_result (uuid.UUID_bytes_version4 b)).

(** [create_new_machine_id]. *)
Definition create_new_machine_id (path : Path) : M W unit :=
  u <- uuid4 ;;
  let new_id := uuid.str u in
  create_file_with_content path new_id "Created new machine ID".

(** [datetime.now()]. *)
Definition datetime_now : M W datetime :=
  fun w =>
    let (w', ns) := clock_ns w in
    (w', ([], ok (datetime_of_clock (fun u => localtime u w') ns))).

(** [int(d.timestamp() * 1000)]. *)
Definition timestamp_ms (d : datetime) : M W Z :=
  test (fun w =>
          int_times_1000 (datetime_timestamp (fun u => localtime u w) d)).

(** The dictionary built by lines 111 to 124 of [create_new_trial_info]. *)
Definition new_trial_data : M W trial_data :=
  now <- datetime_now ;;
  future_date <- lift_py (lift_result (datetime_add_days now 90)) ;;
  start_timestamp_ms <- timestamp_ms now ;;
  end_timestamp_ms <- timestamp_ms future_date ;;
  u <- uuid4 ;;
  ret {| trialStartTimestamp := start_timestamp_ms;
         trialEndTimestamp := end_timestamp_ms;
         hasUsedTrial := false;
         machineId := uuid.str u |}.

(** [create_new_trial_info]. *)
Definition create_new_trial_info (path : Path) : M W unit :=
  m_try_except
    (data <- new_trial_data ;;
     let content := json_dumps_indent4 data in
     create_file_with_content path content "Created new trial info")
    [ (Exception, fun e => lift_py (print (Failed_trial_info path e))) ].

(** [path.parent.exists() or any(parent == path.parent for parent in
    config_dirs)]. *)
Definition parent_is_reasonable (path : Path) (paths : os_paths)
  : M W bool :=
  present <- test (exists_ (parent path)) ;;
  if present then ret true
  else ret (existsb (fun p => eqb p (parent path)) (config_dirs paths)).

(** The creation phase of [reset_cursor] (lines 311 to 337). *)
Definition creation_phase (paths : os_paths) : M W unit :=
  lift_py (print (Line "--- Recreating Identifiers and Trial Info ---")) ;;
  lift_py (print (Line "Attempting to create new identifiers")) ;;
  match machine_id_files paths with
  | [] => lift_py (print (Line "No specific machine ID file path defined"))
  | _ =>
      for_each (machine_id_files paths)
        (fun path =>
           go <- parent_is_reasonable path paths ;;
           if go then create_new_machine_id path
           else lift_py (print (Line "Skipping machine ID creation")))
  end ;;
  match trial_file paths with
  | Some path =>
      go <- parent_is_reasonable path paths ;;
      if go then create_new_trial_info path
      else lift_py (print (Line "Skipping trial info creation"))
  | None => lift_py (print (Line "No specific trial info file path defined"))
  end.

End Script.

(** What a file system promises about the two calls of the writers.
    [read_text] is [Path.read_text()], which the script itself never
    calls. *)
Class OSLaws (W : Type) `{OS W} : Type := {
  read_text : Path -> W -> option string;
  mkdir_parents_is_dir : forall p w w',
    mkdir_parents p w = (w', inr tt) -> is_dir p w' = inr true;
  write_text_read_text : forall p s w w',
    write_text p s w = (w', inr tt) -> read_text p w' = Some s;
  write_text_keeps_dir : forall p q s w w',
    write_text p s w = (w', inr tt) ->
    is_dir q w = inr true -> is_dir q w' = inr true
}.

(* ------------------------------------------------------------------ *)
(** * An executable operating system *)
(* ------------------------------------------------------------------ *)

(** A small in-memory world on which the script runs: a table of the
    paths that exist, a table of failures the mutations are to meet
    (access rights, a competing process), the bytes the random source
    will give, a clock and a time zone. *)
Module MemOS.

Inductive node : Type :=
  | File (content : string)
  | Dir
  | Symlink (target : Path)
  | Special.

Record world : Type := mkWorld {
  nodes : list (Path * node);
  faults : list (Path * exn);
  entropy : list byte;
  clock : Z;
  tick : Z;
  utc_offset : Z;
  transitions : list (Z * Z)
}.

Fixpoint lookup {A} (p : Path) (l : list (Path * A)) : option A :=
  match l with
  | [] => None
  | (q, a) :: l' => if eqb q p then Some a else lookup p l'
  end.

Definition delete {A} (p : Path) (l : list (Path * A)) : list (Path * A) :=
  filter (fun qa => negb (eqb (fst qa) p)) l.

Definition insert {A} (p : Path) (a : A) (l : list (Path * A))
  : list (Path * A) :=
  (p, a) :: delete p l.

(** The root and the current directory always exist. *)
Definition node_at (p : Path) (w : world) : option node :=
  match tail p with
  | [] => Some Dir
  | _ => lookup p (nodes w)
  end.

(** Following a symbolic link at the end of a path; a link to a link
    is not followed (too many levels). *)
Definition resolve (p : Path) (w : world) : option node :=
  match node_at p w with
  | Some (Symlink t) =>
      match node_at t w with
      | Some (Symlink _) => None
      | n => n
      end
  | n => n
  end.

Definition with_nodes (w : world) (l : list (Path * node)) : world :=
  mkWorld l (faults w) (entropy w) (clock w) (tick w) (utc_offset w)
    (transitions w).

Definition mem_exists (p : Path) (w : world) : result bool :=
  ok match resolve p w with
     | Some _ => true
     | None => false
     end.

Definition mem_is_file (p : Path) (w : world) : result bool :=
  ok match resolve p w with
     | Some (File _) => true
     | _ => false
     end.

Definition mem_is_dir (p : Path) (w : world) : result bool :=
  ok match resolve p w with
     | Some Dir => true
     | _ => false
     end.

Definition mem_is_symlink (p : Path) (w : world) : result bool :=
  ok match node_at p w with
     | Some (Symlink _) => true
     | _ => false
     end.

Definition mem_unlink (p : Path) (w : world) : world * result unit :=
  match lookup p (faults w) with
  | Some e => (w, raise e)
  | None =>
      match node_at p w with
      | None => (w, raise (mkExn FileNotFoundError "No such file or directory"))
      | Some Dir => (w, raise (mkExn IsADirectoryError "Is a directory"))
      | Some _ => (with_nodes w (delete p (nodes w)), ok tt)
      end
  end.

(** [rmtree] removes the directory and all that lies under it. *)
Definition mem_rmtree (p : Path) (w : world) : world * result unit :=
  match lookup p (faults w) with
  | Some e => (w, raise e)
  | None =>
      match node_at p w with
      | None => (w, raise (mkExn FileNotFoundError "No such file or directory"))
      | Some Dir =>
          (with_nodes w
             (filter (fun qn => negb (is_relative_to (fst qn) p)) (nodes w)),
           ok tt)
      | Some (Symlink _) =>
          (w, raise (mkExn OSError "Cannot call rmtree on a symbolic link"))
      | Some _ => (w, raise (mkExn NotADirectoryError "Not a directory"))
      end
  end.

(** [os.mkdir]. *)
Definition os_mkdir (p : Path) (w : world) : world * result unit :=
  match lookup p (faults w) with
  | Some e => (w, raise e)
  | None =>
      match node_at p w with
      | Some _ => (w, raise (mkExn FileExistsError "File exists"))
      | None =>
          match resolve (parent p) w with
          | Some Dir => (with_nodes w (insert p Dir (nodes w)), ok tt)
          | Some _ => (w, raise (mkExn NotADirectoryError "Not a directory"))
          | None =>
              (w, raise (mkExn FileNotFoundError "No such file or directory"))
          end
      end
  end.

(** [Path.mkdir(parents=True, exist_ok=True)], as [pathlib] writes it:
    try [os.mkdir]; when the parent is missing make the parent first;
    any other failure is forgiven when the path is a directory. *)
Fixpoint mem_mkdir_fuel (fuel : nat) (p : Path) (w : world)
  : world * result unit :=
  match os_mkdir p w with
  | (w', inr tt) => (w', ok tt)
  | (w', inl e) =>
      if isinstance e FileNotFoundError then
        match fuel with
        | O => (w', raise e)
        | S fuel' =>
            if eqb (parent p) p then (w', raise e)
            else
              match mem_mkdir_fuel fuel' (parent p) w' with
              | (w1, inl e1) => (w1, raise e1)
              | (w1, inr tt) =>
                  match os_mkdir p w1 with
                  | (w2, inr tt) => (w2, ok tt)
                  | (w2, inl e2) =>
                      match mem_is_dir p w2 with
                      | inr true => (w2, ok tt)
                      | _ => (w2, raise e2)
                      end
                  end
              end
        end
      else
        match mem_is_dir p w' with
        | inr true => (w', ok tt)
        | _ => (w', raise e)
        end
  end.

Definition mem_mkdir_parents (p : Path) (w : world) : world * result unit :=
  mem_mkdir_fuel (List.length (tail p)) p w.

(** [open(p, 'w')] and one [write]: a link is followed to its target;
    the target must be a regular file or absent, in a directory. *)
Definition mem_write_text (p : Path) (s : string) (w : world)
  : world * result unit :=
  match lookup p (faults w) with
  | Some e => (w, raise e)
  | None =>
      let target := match node_at p w with
                    | Some (Symlink t) => t
                    | _ => p
                    end in
      match node_at target w with
      | Some Dir => (w, raise (mkExn IsADirectoryError "Is a directory"))
      | Some (Symlink _) =>
          (w, raise (mkExn OSError "Too many levels of symbolic links"))
      | Some Special => (w, raise (mkExn PermissionError "Permission denied"))
      | Some (File _) | None =>
          match resolve (parent target) w with
          | Some Dir => (with_nodes w (insert target (File s) (nodes w)), ok tt)
          | Some _ => (w, raise (mkExn NotADirectoryError "Not a directory"))
          | None =>
              (w, raise (mkExn FileNotFoundError "No such file or directory"))
          end
      end
  end.

Definition mem_read_text (p : Path) (w : world) : option string :=
  match resolve p w with
  | Some (File s) => Some s
  | _ => None
  end.

(** The next [n] bytes of the random source (zeros once it is used up). *)
Fixpoint take_bytes (n : nat) (l : list byte) : list byte * list byte :=
  match n with
  | O => ([], l)
  | S n' =>
      match l with
      | [] => let (b, r) := take_bytes n' [] in (x00 :: b, r)
      | x :: l' => let (b, r) := take_bytes n' l' in (x :: b, r)
      end
  end.

Definition mem_urandom (n : nat) (w : world) : world * list byte :=
  let (b, rest) := take_bytes n (entropy w) in
  (mkWorld (nodes w) (faults w) rest (clock w) (tick w) (utc_offset w)
     (transitions w), b).

(** Reading the clock takes one tick. *)
Definition mem_clock_ns (w : world) : world * Z :=
  (mkWorld (nodes w) (faults w) (entropy w) (clock w + tick w)%Z (tick w)
     (utc_offset w) (transitions w), clock w).

(** The offset from UTC in force at the instant [u]: the one of the last
    transition not after [u]. *)
Fixpoint offset_at (base : Z) (tr : list (Z * Z)) (u : Z) : Z :=
  match tr with
  | [] => base
  | (instant, off) :: tr' =>
      if (instant <=? u)%Z then offset_at off tr' u else base
  end.

Definition mem_localtime (u : Z) (w : world) : Z :=
  (u + offset_at (utc_offset w) (transitions w) u)%Z.

#[global] Instance MemOS_OS : OS world := {
  exists_ := mem_exists;
  is_file := mem_is_file;
  is_symlink := mem_is_symlink;
  is_dir := mem_is_dir;
  unlink := mem_unlink;
  rmtree := mem_rmtree;
  mkdir_parents := mem_mkdir_parents;
  write_text := mem_write_text;
  urandom := mem_urandom;
  clock_ns := mem_clock_ns;
  localtime := mem_localtime
}.

End MemOS.

(** A world to run the script on: a home directory with configuration
    and cache directories of the application, an old identifier file, a
    cache directory the user may not delete, and [/etc/passwd]. *)
Definition sample_world : MemOS.world :=
  MemOS.mkWorld
    [ (Path_ "/home", MemOS.Dir);
      (home_u, MemOS.Dir);
      (home_u // ".config", MemOS.Dir);
      (home_u // ".config/Cursor", MemOS.Dir);
      (home_u // ".config/Cursor/storage.json", MemOS.File "{}");
      (home_u // ".cursor-machine-id", MemOS.File "abc");
      (home_u // ".cache", MemOS.Dir);
      (home_u // ".cache/Cursor", MemOS.Dir);
      (home_u // "notes", MemOS.Dir);
      (home_u // "notes/todo.txt", MemOS.File "keep");
      (Path_ "/etc", MemOS.Dir);
      (Path_ "/etc/passwd", MemOS.File "root") ]
    [ (home_u // ".cache/Cursor", mkExn PermissionError "Permission denied") ]
    [ x01; x02; x03; x04; x05; x06; x07; x08;
      x09; x0a; x0b; x0c; x0d; x0e; x0f; x10 ]
    1700000000123456789 1000 0 [].

(** The Linux table of [get_os_paths] for a home directory. *)
Definition linux_paths (home_dir : Path) : os_paths :=
  let config_dir := home_dir // ".config" in
  let cache_dir := home_dir // ".cache" in
  let local_share := home_dir // ".local" // "share" in
  {| config_dirs :=
       [ config_dir // "Cursor"; config_dir // "cursor-electron" ];
     cache_dirs :=
       [ cache_dir // "Cursor"; cache_dir // "cursor-electron";
         config_dir // "Code" // "User" // "workspaceStorage";
         config_dir // "Code" // "User" // "globalStorage"
                    // "cursorai.cursor" ];
     state_files :=
       [ local_share // "Cursor"; local_share // "cursor-electron";
         home_dir // ".cursor_trial_data"; home_dir // ".cursor_license";
         home_dir // ".cursor-machine-id";
         config_dir // "Cursor" // "User" // "state.vscdb";
         config_dir // "Cursor" // "User" // "sync";
         config_dir // "Cursor" // "storage.json";
         config_dir // "Cursor" // "logs" ];
     machine_id_files := [ config_dir // "Cursor" // "machineid" ];
     trial_file := Some (config_dir // "Cursor" // "trial_info.json");
     allowed_bases := EXPECTED_BASES Linux |}.

(** A world in central Europe on 2024-01-15 at 12:00:00.250 local time
    (11:00 UTC): one hour ahead of UTC, two hours from 2024-03-31 01:00
    UTC to 2024-10-27 01:00 UTC. *)
Definition berlin_world : MemOS.world :=
  MemOS.mkWorld (MemOS.nodes sample_world) [] (MemOS.entropy sample_world)
    1705316400250000000 1000 3600
    [ (1711846800, 7200); (1729990800, 3600) ]%Z.

(** A world on UTC on 2037-11-21 at 13:49:14.970. *)
Definition utc_world_2037 : MemOS.world :=
  MemOS.mkWorld (MemOS.nodes sample_world) [] (MemOS.entropy sample_world)
    2142424154970000000 1000 0 [].

(** The in-memory world behind directories that may not be searched (no
    [x] permission for the user): every call on a path below such a
    directory fails with [PermissionError], the [EACCES] of [stat],
    [unlink], [mkdir] and [open]. *)
Module LockedOS.

Record world : Type := mkWorld {
  inner : MemOS.world;
  locked : list Path
}.

Definition EACCES : exn := mkExn PermissionError "Permission denied".

(** [p] lies below a locked directory. *)
Definition denied (p : Path) (w : world) : bool :=
  existsb (fun d => is_relative_to p d && negb (eqb p d)) (locked w).

Definition guard_test {A} (q : Path -> MemOS.world -> result A)
    (p : Path) (w : world) : result A :=
  if denied p w then raise EACCES else q p (inner w).

Definition guard_mutation {A}
    (f : Path -> MemOS.world -> MemOS.world * result A)
    (p : Path) (w : world) : world * result A :=
  if denied p w then (w, raise EACCES)
  else let (i, r) := f p (inner w) in (mkWorld i (locked w), r).

#[global] Instance LockedOS_OS : OS world := {
  exists_ := guard_test MemOS.mem_exists;
  is_file := guard_test MemOS.mem_is_file;
  is_symlink := guard_test MemOS.mem_is_symlink;
  is_dir := guard_test MemOS.mem_is_dir;
  unlink := guard_mutation MemOS.mem_unlink;
  rmtree := guard_mutation MemOS.mem_rmtree;
  mkdir_parents := guard_mutation MemOS.mem_mkdir_parents;
  write_text := fun p s => guard_mutation (fun q => MemOS.mem_write_text q s) p;
  urandom := fun n w =>
    let (i, b) := MemOS.mem_urandom n (inner w) in (mkWorld i (locked w), b);
  clock_ns := fun w =>
    let (i, t) := MemOS.mem_clock_ns (inner w) in (mkWorld i (locked w), t);
  localtime := fun u w => MemOS.mem_localtime u (inner w)
}.

End LockedOS.

(** The sample world after [~/.config] lost its search permission (mode
    [000], say): [stat] of anything below it is refused. *)
Definition locked_world : LockedOS.world :=
  LockedOS.mkWorld sample_world [ home_u // ".config" ].

(* ------------------------------------------------------------------ *)
(** * The tables of the operating systems and the whole run *)
(* ------------------------------------------------------------------ *)

(** The macOS table of [get_os_paths]. *)
Definition darwin_paths (home_dir : Path) : os_paths :=
  let library := home_dir // "Library" in
  let app_support := library // "Application Support" in
  let caches := library // "Caches" in
  let prefs := library // "Preferences" in
  let saved_state := library // "Saved Application State" in
  let http_storage := library // "HTTPStorages" in
  {| config_dirs :=
       [ app_support // "Cursor"; app_support // "cursor-electron" ];
     cache_dirs :=
       [ caches // "Cursor"; caches // "cursor-electron";
         app_support // "Code" // "User" // "workspaceStorage";
         app_support // "Code" // "User" // "globalStorage"
                     // "cursorai.cursor" ];
     state_files :=
       [ prefs // "com.cursor.Cursor.plist";
         saved_state // "com.cursor.Cursor.savedState";
         http_storage // "com.cursor.Cursor";
         home_dir // ".cursor_trial_data"; home_dir // ".cursor_license";
         home_dir // ".cursor-machine-id";
         app_support // "Cursor" // "User" // "state.vscdb";
         app_support // "Cursor" // "User" // "sync";
         app_support // "Cursor" // "storage.json";
         app_support // "Cursor" // "logs" ];
     machine_id_files := [ app_support // "Cursor" // "machineid" ];
     trial_file := Some (app_support // "Cursor" // "trial_info.json");
     allowed_bases := EXPECTED_BASES Darwin |}.

(** The Windows table of [get_os_paths].  Every name joined here is a
    single component, so the components of these paths are the ones
    [pathlib] builds on Windows too; their strings and their comparison
    are those of the Windows flavour, which this development does not
    model: nothing below is stated about the gate on this table. *)
Definition windows_paths (home_dir : Path) : os_paths :=
  let app_data := home_dir // "AppData" in
  let local_app_data := app_data // "Local" in
  let roaming_app_data := app_data // "Roaming" in
  let temp_dir := local_app_data // "Temp" in
  {| config_dirs :=
       [ roaming_app_data // "Cursor"; roaming_app_data // "cursor-electron";
         roaming_app_data // "CursorAI" ];
     cache_dirs :=
       [ local_app_data // "Cursor"; local_app_data // "cursor-electron";
         local_app_data // "CursorAI";
         temp_dir // "Cursor"; temp_dir // "cursor-updater";
         roaming_app_data // "Code" // "User" // "workspaceStorage";
         roaming_app_data // "Code" // "User" // "globalStorage"
                          // "cursorai.cursor" ];
     state_files :=
       [ home_dir // ".cursor_trial_data"; home_dir // ".cursor_license";
         home_dir // ".cursor-machine-id";
         roaming_app_data // "Cursor" // "User" // "state.vscdb";
         roaming_app_data // "Cursor" // "User" // "sync";
         roaming_app_data // "Cursor" // "storage.json";
         roaming_app_data // "Cursor" // "logs" ];
     machine_id_files := [ roaming_app_data // "Cursor" // "machineid" ];
     trial_file := Some (roaming_app_data // "Cursor" // "trial_info.json");
     allowed_bases := EXPECTED_BASES Windows |}.

(** [get_os_paths], for the name [platform.system()] returns: [None]
    and a printed error for any other system than the three. *)
Definition get_os_paths (system : string) (home_dir : Path)
  : Py (option os_paths) :=
  if system =? "Windows" then ret (Some (windows_paths home_dir))
  else if system =? "Darwin" then ret (Some (darwin_paths home_dir))
  else if system =? "Linux" then ret (Some (linux_paths home_dir))
  else print (Line ("Unsupported OS: " ++ system)) ;; ret None.

(** The lines [reset_cursor] prints before it asks, and when it is
    done. *)
Definition warning_lines (home_dir : Path) (paths : os_paths)
  : list message :=
  [ Line "===== Cursor AI Reset Tool =====";
    Line "WARNING: This tool will attempt to completely reset Cursor AI.";
    Line "This involves deleting configuration, cache, state, and license/trial files.";
    Line "Make sure Cursor AI is not running before proceeding.";
    Line "Your settings and history will be lost. This action is irreversible.";
    Line "It attempts to reset your trial, but this is not guaranteed to work long-term.";
    Line "Paths targeted for deletion are within standard application data locations:";
    Line ("  " ++ String.concat ", " (allowed_bases paths)
               ++ " relative to " ++ str home_dir) ].

Definition completion_lines : list message :=
  [ Line "Cursor AI reset process completed!";
    Line "Files and directories related to Cursor AI have been removed.";
    Line "A new machine ID and trial information file have been attempted.";
    Line "You may need to restart Cursor AI, or potentially reinstall it, for changes to take full effect.";
    Line "Enjoy your potentially refreshed trial period!" ].

(** [for m in l: print(m)]. *)
Fixpoint print_all (l : list message) : Py unit :=
  match l with
  | [] => ret tt
  | m :: l' => print m ;; print_all l'
  end.

Section Run.

Context {W : Type} `{OS W}.

(** [reset_cursor].  [home_dir] is [Path.home()], [system] is
    [platform.system()], and [answer] is what the user typed at the
    confirmation, stripped and in lower case
    ([input(...).strip().lower()]); [None] is the [EOFError] of a closed
    input. *)
Definition reset_cursor (home_dir : Path) (system : string)
    (answer : option string) : M W unit :=
  found <- lift_py (get_os_paths system home_dir) ;;
  match found with
  | None => ret tt
  | Some paths =>
      lift_py (print_all (warning_lines home_dir paths)) ;;
      match answer with
      | None =>
          lift_py (print (Line "Input closed unexpectedly. Reset cancelled."))
      | Some choice =>
          if negb (choice =? "y") then
            lift_py (print (Line "Reset cancelled by user."))
          else
            lift_py (print (Line ("Starting Cursor AI reset for "
                                    ++ system ++ "..."))) ;;
            deletion_phase home_dir paths ;;
            creation_phase paths ;;
            lift_py (print_all completion_lines)
      end
  end.

End Run.

(** What a file system promises about a deletion that succeeded: the
    path is gone.  (The root directory has no name to remove.) *)
Class DeletionLaws (W : Type) `{OS W} : Type := {
  unlink_removes : forall p w w',
    unlink p w = (w', inr tt) -> exists_ p w' = inr false;
  rmtree_removes : forall p w w',
    tail p <> [] -> rmtree p w = (w', inr tt) -> exists_ p w' = inr false
}.

(** A world with a symbolic link and a socket among the candidates: the
    configuration directory of the application is a link to a directory
    elsewhere in the home directory. *)
Definition links_world : MemOS.world :=
  MemOS.mkWorld
    [ (Path_ "/home", MemOS.Dir);
      (home_u, MemOS.Dir);
      (home_u // "dotfiles", MemOS.Dir);
      (home_u // "dotfiles/settings.json", MemOS.File "{}");
      (home_u // ".config", MemOS.Dir);
      (home_u // ".config/Cursor", MemOS.Symlink (home_u // "dotfiles"));
      (home_u // ".cache", MemOS.Dir);
      (home_u // ".cache/Cursor", MemOS.Special) ]
    [] [] 1700000000000000000 1000 0 [].

(** What [remove_path] reports after a deletion it tried: the success
    line, or the report of the exception. *)
Definition mutation_report {W} (done : message) (p : Path)
    (r : W * result unit) : W * Py unit :=
  match r with
  | (w', inr _) => (w', ([done], inr tt))
  | (w', inl e) => (w', ([report p e], inr tt))
  end.

(** A computation that returns in every world. *)
Definition never_raises {W A} (c : M W A) : Prop :=
  forall w, exists w' out a, c w = (w', (out, inr a)).

(** A computation that raises only what [P] allows, [P] being told the
    world the exception left. *)
Definition raises_only {W A} (P : W -> exn -> Prop) (c : M W A) : Prop :=
  forall w, exists w' out r,
    c w = (w', (out, r)) /\
    match r with
    | inr _ => True
    | inl e => P w' e
    end.

(** The paths whose existence a confirmed run tests: the candidates of
    the deletion phase (line 61) and the parents of the files to create
    (lines 323 and 332). *)
Definition tested_paths (paths : os_paths) : list Path :=
  (config_dirs paths ++ cache_dirs paths ++ state_files paths
   ++ map parent (machine_id_files paths)
   ++ match trial_file paths with
      | Some path => [parent path]
      | None => []
      end)%list.

(** [e] is what the existence test of one of the paths [l] raises in the
    world [w]. *)
Definition raised_by_exists {W} `{OS W} (l : list Path) (w : W) (e : exn)
  : Prop :=
  exists p, In p l /\ exists_ p w = inl e.

(* ------------------------------------------------------------------ *)
(** * pathlib and the gate on sample paths *)
(* ------------------------------------------------------------------ *)

Example parse_abs :
  Path_ "/home/u/./.config//x/" = mkPath "/" ["home"; "u"; ".config"; "x"].
Proof. reflexivity. Qed.

Example parse_dotdot :
  Path_ "/home/u/../etc" = mkPath "/" ["home"; "u"; ".."; "etc"].
Proof. reflexivity. Qed.

Example parse_two_slashes : root (Path_ "//home/u") = "//".
Proof. reflexivity. Qed.

Example parse_three_slashes : root (Path_ "///home/u") = "/".
Proof. reflexivity. Qed.

Example parse_dot : Path_ "." = mkPath "" [] /\ str (Path_ ".") = ".".
Proof. split; reflexivity. Qed.

Example parent_dotdot : parent (Path_ "..") = Path_ ".".
Proof. reflexivity. Qed.

Example join_abs : Path_ "/home/u" // "/etc/passwd" = Path_ "/etc/passwd".
Proof. reflexivity. Qed.

Example gate_config :
  is_safe_to_delete (home_u // ".config" // "Cursor") home_u
    (EXPECTED_BASES Linux) = ([], inr true).
Proof. reflexivity. Qed.

Example gate_etc :
  is_safe_to_delete (Path_ "/etc/passwd") home_u (EXPECTED_BASES Linux)
  = ([Skipping_unsafe_outside_home (Path_ "/etc/passwd")], inr false).
Proof. reflexivity. Qed.

Example gate_deep :
  is_safe_to_delete (home_u // "foo" // "bar") home_u (EXPECTED_BASES Linux)
  = ([Skipping_unexpected_location (home_u // "foo/bar")], inr false).
Proof. reflexivity. Qed.

Example gate_dotdot_etc :
  verdict (is_safe_to_delete (home_u // ".." // "etc" // "passwd") home_u
             (EXPECTED_BASES Linux)) = false.
Proof. reflexivity. Qed.

Example gate_machine_id :
  verdict (is_safe_to_delete (home_u // ".cursor-machine-id") home_u
             (EXPECTED_BASES Linux)) = true.
Proof. reflexivity. Qed.

(* ------------------------------------------------------------------ *)
(** * Facts about paths *)
(* ------------------------------------------------------------------ *)

Lemma list_eqb_eq (l m : list string) : list_eqb l m = true <-> l = m.
Proof.
  revert m; induction l as [|x l IH]; intros [|y m]; simpl;
    try (split; [discriminate | discriminate]); try tauto.
  rewrite andb_true_iff, String.eqb_eq, IH.
  split; [intros [-> ->]; reflexivity | intros E; inversion E; auto].
Qed.

Lemma list_eqb_refl (l : list string) : list_eqb l l = true.
Proof. apply list_eqb_eq; reflexivity. Qed.

Lemma path_eqb_eq (p q : Path) : eqb p q = true <-> p = q.
Proof.
  destruct p as [r t], q as [r' t']; unfold eqb; simpl.
  rewrite andb_true_iff, String.eqb_eq, list_eqb_eq.
  split; [intros [-> ->]; reflexivity | intros E; inversion E; auto].
Qed.

Lemma path_eqb_refl (p : Path) : eqb p p = true.
Proof. apply path_eqb_eq; reflexivity. Qed.

Lemma firstn_length_app {A} (l m : list A) : firstn (List.length l) (l ++ m) = l.
Proof. induction l; simpl; congruence. Qed.

Lemma skipn_length_app {A} (l m : list A) : skipn (List.length l) (l ++ m) = m.
Proof. induction l; simpl; congruence. Qed.

(** The compared list of a path under [home]: the one of [home], then
    the further components. *)
Lemma abs_parts_app (r : string) (t m : list string) :
  abs_parts (mkPath r (t ++ m)) = (abs_parts (mkPath r t) ++ m)%list.
Proof. unfold abs_parts; simpl; destruct (r =? ""); reflexivity. Qed.

Lemma abs_parts_length_1 (p : Path) :
  List.length (abs_parts p) = 1 -> root p = "".
Proof.
  unfold abs_parts; destruct (String.eqb_spec (root p) "") as [E|E]; auto.
  simpl; discriminate.
Qed.

(** The path relative to [home] of a path made of [home] and further
    components is the path of these components. *)
Lemma relative_to_extension (home : Path) (m : list string) :
  relative_to (mkPath (root home) (tail home ++ m)) home = inr (mkPath "" m).
Proof.
  unfold relative_to.
  rewrite abs_parts_app.
  replace (mkPath (root home) (tail home)) with home by (destruct home; auto).
  rewrite firstn_length_app, skipn_length_app, list_eqb_refl; simpl.
  destruct (Nat.eqb_spec (List.length (abs_parts home)) 0) as [E0|E0].
  - assert (R : root home = "").
    { unfold abs_parts in E0.
      destruct (String.eqb_spec (root home) ""); auto; discriminate. }
    rewrite E0, R; reflexivity.
  - destruct (Nat.eqb_spec (List.length (abs_parts home)) 1) as [E1|E1];
      [rewrite (abs_parts_length_1 _ E1)|]; reflexivity.
Qed.

Lemma relative_to_self (home : Path) :
  relative_to home home = inr (mkPath "" []).
Proof.
  rewrite <- (relative_to_extension home []), app_nil_r.
  destruct home; reflexivity.
Qed.

Lemma is_relative_to_inr (p home r : Path) :
  relative_to p home = inr r -> is_relative_to p home = true.
Proof. unfold is_relative_to; intros ->; reflexivity. Qed.

Lemma is_relative_to_true (p home : Path) :
  is_relative_to p home = true -> exists r, relative_to p home = inr r.
Proof.
  unfold is_relative_to; destruct (relative_to p home) as [e|r];
    [discriminate | eauto].
Qed.

(** [relative_to] is lexical: it succeeds exactly when the compared list
    of [home] starts the one of the path. *)
Lemma relative_to_inr_parts (p home r : Path) :
  relative_to p home = inr r ->
  List.length (abs_parts home) <> 0 ->
  firstn (List.length (abs_parts home)) (abs_parts p) = abs_parts home /\
  tail r = skipn (List.length (abs_parts home)) (abs_parts p).
Proof.
  unfold relative_to; intros E N.
  destruct (Nat.eqb_spec (List.length (abs_parts home)) 0); [contradiction|].
  destruct (list_eqb _ _) eqn:L; simpl in E; [|discriminate].
  apply list_eqb_eq in L; inversion E; auto.
Qed.

(** A component of a well-formed path is not empty. *)
Lemma wf_part_nonempty (x : string) : wf_part x = true -> x <> "".
Proof. intros H ->; discriminate. Qed.

(** For a well-formed [home], the relative path has no root. *)
Lemma relative_to_root (p home r : Path) :
  wf home = true -> relative_to p home = inr r -> root r = "".
Proof.
  unfold relative_to; intros WF E.
  destruct (Nat.eqb_spec (List.length (abs_parts home)) 1) as [E1|E1].
  - pose proof (abs_parts_length_1 _ E1) as R.
    unfold abs_parts in *; rewrite R in *; simpl in *.
    destruct (tail home) as [|x [|? ?]] eqn:T; try discriminate.
    simpl in E.
    unfold wf in WF; rewrite T in WF; simpl in WF.
    apply andb_true_iff in WF; destruct WF as [_ WF].
    rewrite andb_true_r in WF.
    destruct (String.eqb_spec (root p) "") as [Rp|Rp].
    + destruct (negb _); inversion E; simpl; auto.
    + destruct x as [|c x]; [discriminate WF|].
      simpl in E; discriminate E.
  - destruct (if Nat.eqb _ 0 then _ else _); inversion E; reflexivity.
Qed.

(* ------------------------------------------------------------------ *)
(** * The path safety gate *)
(* ------------------------------------------------------------------ *)

(** The two ways through the gate. *)
Lemma gate_outside (p home : Path) (bases : list string) :
  is_relative_to p home = false ->
  is_safe_to_delete p home bases
  = ([Skipping_unsafe_outside_home p], inr false).
Proof. unfold is_safe_to_delete; intros ->; reflexivity. Qed.

Lemma gate_inside (p home r : Path) (bases : list string) :
  relative_to p home = inr r ->
  is_safe_to_delete p home bases
  = if existsb (fun base => startswith (str r) base) bases
       || eqb (parent r) (Path_ ".")
    then ([], inr true)
    else ([Skipping_unexpected_location p], inr false).
Proof.
  intros E; unfold is_safe_to_delete.
  rewrite (is_relative_to_inr _ _ _ E), E; simpl.
  destruct (existsb _ bases); simpl; [reflexivity|].
  destruct (eqb (parent r) (Path_ ".")); reflexivity.
Qed.

(** The gate always returns: it raises nothing, and its verdict is
    [true] exactly when it prints nothing. *)
Lemma is_safe_to_delete_returns (p home : Path) (bases : list string) :
  exists out b,
    is_safe_to_delete p home bases = (out, inr b) /\
    (b = true <-> out = []).
Proof.
  destruct (is_relative_to p home) eqn:R.
  - destruct (is_relative_to_true _ _ R) as [r E].
    rewrite (gate_inside _ _ _ _ E).
    destruct (_ || _); eexists; eexists; split; eauto;
      split; congruence.
  - rewrite (gate_outside _ _ _ R).
    eexists; eexists; split; eauto; split; congruence.
Qed.

(** A candidate whose components do not start with those of [home] is
    rejected. *)
Lemma gate_rejects_lexically_outside (p home : Path) (bases : list string) :
  is_relative_to p home = false ->
  verdict (is_safe_to_delete p home bases) = false.
Proof. intros R; rewrite (gate_outside _ _ _ R); reflexivity. Qed.

(** The gate accepts [home] itself, whatever the allowed bases: the path
    relative to [home] is ["."], which is its own parent. *)
Lemma gate_accepts_home (home : Path) (bases : list string) :
  is_safe_to_delete home home bases = ([], inr true).
Proof.
  rewrite (gate_inside _ _ _ _ (relative_to_self home)).
  replace (eqb (parent (mkPath "" [])) (Path_ ".")) with true by reflexivity.
  rewrite orb_true_r; reflexivity.
Qed.

(** The candidate of the specification, [home/../etc/passwd], is rejected
    under the Linux bases: no base starts its relative path
    ["../etc/passwd"], and it is no direct child. *)
Example gate_rejects_home_dotdot_etc_passwd :
  is_safe_to_delete (home_u // "../etc/passwd") home_u (EXPECTED_BASES Linux)
  = ([Skipping_unexpected_location (home_u // "../etc/passwd")], inr false).
Proof. reflexivity. Qed.

(** [home/..] is accepted: its relative path [".."] has the parent
    ["."], as a direct child has. *)
Example gate_accepts_parent_of_home :
  normpath (home_u // "..") = Path_ "/home" /\
  is_safe_to_delete (home_u // "..") home_u (EXPECTED_BASES Linux)
  = ([], inr true).
Proof. split; reflexivity. Qed.

(** C1: the candidate [/home/u/.config/../../../etc/passwd] points to
    [/etc/passwd], outside the home directory [/home/u], and
    [is_safe_to_delete] returns [True] for it: its relative path starts
    with the allowed prefix [.config], and no [..] is ever resolved. *)
Theorem C1_dotdot_escape_judged_safe :
  let home := Path_ "/home/u" in
  let candidate := home // ".config/../../../etc/passwd" in
  normpath candidate = Path_ "/etc/passwd" /\
  is_relative_to (normpath candidate) home = false /\
  is_safe_to_delete candidate home (EXPECTED_BASES Linux) = ([], inr true).
Proof. repeat split; reflexivity. Qed.

(** C3: for the candidate equal to the home directory,
    [is_safe_to_delete] returns [True]: containment is not strict. *)
Theorem C3_home_itself_judged_safe :
  is_safe_to_delete (Path_ "/home/u") (Path_ "/home/u") (EXPECTED_BASES Linux)
  = ([], inr true).
Proof. apply gate_accepts_home. Qed.

(** C4: a candidate under the home directory whose relative path, as a
    string, starts with one of the allowed prefixes is judged safe (and
    nothing is printed). *)
Theorem C4_allowed_prefix_is_safe
    (p home r : Path) (bases : list string) (base : string) :
  relative_to p home = inr r ->
  In base bases ->
  startswith (str r) base = true ->
  is_safe_to_delete p home bases = ([], inr true).
Proof.
  intros E I S.
  rewrite (gate_inside _ _ _ _ E).
  assert (X : existsb (fun b => startswith (str r) b) bases = true)
    by (apply existsb_exists; eauto).
  rewrite X; reflexivity.
Qed.

Lemma C4_allowed_prefix_is_safe_witness :
  is_safe_to_delete (home_u // ".config" // "Cursor") home_u
    (EXPECTED_BASES Linux) = ([], inr true).
Proof.
  apply (C4_allowed_prefix_is_safe _ _ (Path_ ".config/Cursor") _ ".config").
  - reflexivity.
  - simpl; auto.
  - reflexivity.
Defined.

(** C5: a candidate whose path relative to the home directory has a
    single component, a direct child of the home directory, is judged
    safe whatever the allowed prefixes are. *)
Theorem C5_direct_child_is_safe
    (p home r : Path) (bases : list string) :
  wf home = true ->
  relative_to p home = inr r ->
  List.length (tail r) = 1 ->
  is_safe_to_delete p home bases = ([], inr true).
Proof.
  intros WF E L.
  rewrite (gate_inside _ _ _ _ E).
  pose proof (relative_to_root _ _ _ WF E) as R.
  destruct r as [rr [|x [|y t]]]; simpl in *; try discriminate; subst rr.
  replace (eqb (parent (mkPath "" [x])) (Path_ ".")) with true by reflexivity.
  rewrite orb_true_r; reflexivity.
Qed.

Lemma C5_direct_child_is_safe_witness :
  is_safe_to_delete (home_u // ".cursor-machine-id") home_u [] = ([], inr true)
  /\ existsb (fun base => startswith ".cursor-machine-id" base)
       (EXPECTED_BASES Linux) = false.
Proof.
  split.
  - apply (C5_direct_child_is_safe _ _ (Path_ ".cursor-machine-id"));
      reflexivity.
  - reflexivity.
Defined.

Lemma prefix_app (a b : string) : String.prefix a (a ++ b) = true.
Proof.
  induction a as [|c a IH]; simpl.
  - destruct b; reflexivity.
  - destruct (ascii_dec c c); [assumption | contradiction].
Qed.

Lemma append_assoc (a b c : string) : ((a ++ b) ++ c = a ++ (b ++ c))%string.
Proof. induction a; simpl; congruence. Qed.

(** The string of a relative path starts with its first component. *)
Lemma str_relative_cons (x : string) (rest : list string) :
  x <> "" ->
  exists s, str (mkPath "" (x :: rest)) = x ++ s.
Proof.
  intros N; unfold str; simpl.
  destruct rest as [|y rest].
  - exists "". destruct x; [contradiction|].
    simpl. clear N. induction x; simpl; congruence.
  - exists ("/" ++ String.concat "/" (y :: rest)).
    destruct x; [contradiction | reflexivity].
Qed.

Lemma firstn_app_cons_inv {A} (n : nat) (l m m' : list A) (x y : A) :
  firstn n (l ++ x :: m) = (l ++ y :: m')%list -> x = y.
Proof.
  revert n; induction l as [|a l IH]; intros [|n] E; simpl in *;
    try discriminate; inversion E; eauto.
Qed.

(** Two paths that part ways at some component: neither lies under the
    other. *)
Lemma is_relative_to_diverging (r : string) (t m m' : list string)
    (x y : string) :
  x <> y ->
  is_relative_to (mkPath r (t ++ x :: m)) (mkPath r (t ++ y :: m')) = false.
Proof.
  intros N; unfold is_relative_to, relative_to.
  rewrite !abs_parts_app.
  set (A := abs_parts (mkPath r t)).
  destruct (Nat.eqb_spec (List.length (A ++ y :: m')) 0) as [E|E].
  - rewrite length_app in E; simpl in E; lia.
  - destruct (list_eqb _ _) eqn:L; [|reflexivity].
    apply list_eqb_eq, firstn_app_cons_inv in L; contradiction.
Qed.

(** C10: the prefix test compares strings, not components.  Under any
    home directory, a path below a sibling directory whose name extends
    the allowed prefix [.cache] (such as [.cache_other]) lies under the
    home directory and under none of the allowed directories [.config],
    [.cache] and [.local/share], and the gate judges it safe. *)
Theorem C10_prefix_admits_sibling_of_allowed_base
    (home : Path) (ext : string) (rest : list string) :
  ext <> "" ->
  let p := mkPath (root home) (tail home ++ (".cache" ++ ext) :: rest) in
  is_relative_to p home = true /\
  (forall base, In base (EXPECTED_BASES Linux) ->
                is_relative_to p (home // base) = false) /\
  is_safe_to_delete p home (EXPECTED_BASES Linux) = ([], inr true).
Proof.
  intros N p.
  assert (E : relative_to p home = inr (mkPath "" ((".cache" ++ ext) :: rest)))
    by apply relative_to_extension.
  split; [exact (is_relative_to_inr _ _ _ E)|].
  split.
  - intros base [<-|[<-|[<-|[]]]]; apply is_relative_to_diverging.
    + discriminate.
    + destruct ext; [contradiction | discriminate].
    + discriminate.
  - rewrite (gate_inside _ _ _ _ E).
    destruct (str_relative_cons (".cache" ++ ext) rest) as [s S];
      [discriminate|].
    rewrite S; unfold startswith; simpl existsb.
    destruct ext as [|c ext]; [contradiction | reflexivity].
Qed.

Lemma C10_prefix_admits_sibling_of_allowed_base_witness :
  "_other" <> "" /\
  let p := home_u // ".cache_other" // "data" in
  is_relative_to p home_u = true /\
  (forall base, In base (EXPECTED_BASES Linux) ->
                is_relative_to p (home_u // base) = false) /\
  is_safe_to_delete p home_u (EXPECTED_BASES Linux) = ([], inr true).
Proof.
  split; [discriminate|].
  apply (C10_prefix_admits_sibling_of_allowed_base home_u "_other" ["data"]).
  discriminate.
Defined.

(** The direct child [.cache_other] itself, and a deep path under it
    that the direct-child rule does not cover. *)
Example gate_cache_other :
  is_safe_to_delete (home_u // ".cache_other") home_u (EXPECTED_BASES Linux)
  = ([], inr true) /\
  is_safe_to_delete (home_u // ".cache_other/a/b") home_u
    (EXPECTED_BASES Linux) = ([], inr true) /\
  is_safe_to_delete (home_u // "other.cache/a/b") home_u
    (EXPECTED_BASES Linux)
  = ([Skipping_unexpected_location (home_u // "other.cache/a/b")], inr false).
Proof. repeat split; reflexivity. Qed.

(* ------------------------------------------------------------------ *)
(** * The guarded remover *)
(* ------------------------------------------------------------------ *)

Lemma isinstance_Exception (e : exn) : isinstance e Exception = true.
Proof. destruct e as [[] t]; reflexivity. Qed.

(** The clause that handles an exception prints its report. *)
Lemma outcome_of_report (p : Path) (e : exn) :
  outcome_of [report p e] = Some (failed (classify e)).
Proof. unfold report; destruct (classify e); reflexivity. Qed.

(** A rejection by the gate prints one warning, read as skipped-unsafe. *)
Lemma gate_false_output (p home : Path) (bases : list string)
    (out : list message) :
  is_safe_to_delete p home bases = (out, inr false) ->
  outcome_of out = Some skipped_unsafe.
Proof.
  intros G.
  destruct (is_relative_to p home) eqn:R.
  - destruct (is_relative_to_true _ _ R) as [r E].
    rewrite (gate_inside _ _ _ _ E) in G.
    destruct (_ || _); inversion G; reflexivity.
  - rewrite (gate_outside _ _ _ R) in G; inversion G; reflexivity.
Qed.

(** How the classes of exceptions are told apart. *)
Lemma classify_cases (e : exn) :
  (exn_type e = FileNotFoundError -> classify e = already_gone) /\
  (exn_type e = PermissionError -> classify e = permission_denied) /\
  (isinstance e OSError = true ->
   exn_type e <> FileNotFoundError -> exn_type e <> PermissionError ->
   classify e = os_failure e) /\
  (isinstance e OSError = false -> classify e = unexpected e).
Proof.
  destruct e as [[] t]; unfold classify; simpl;
    repeat split; intros; try reflexivity; try discriminate; congruence.
Qed.

Ltac dispatch_case :=
  simpl; do 3 eexists; split; [reflexivity | simpl; auto].

Section Remover.

Context {W : Type} `{OS W}.

Lemma find_deletion_handler (p : Path) (e : exn) :
  exists h,
    find_handler e (deletion_handlers p) = Some h /\
    forall w : W, h e w = (w, ([report p e], inr tt)).
Proof.
  unfold deletion_handlers, report, classify; simpl.
  destruct (isinstance e FileNotFoundError); [eexists; split; eauto|].
  destruct (isinstance e PermissionError); [eexists; split; eauto|].
  destruct (isinstance e OSError); [eexists; split; eauto|].
  rewrite isinstance_Exception; eexists; split; eauto.
Qed.

(** The [try] of [remove_path] turns an exception of its body into one
    more printed line. *)
Lemma try_type_dispatch_raises (p : Path) (w w' : W) (out : list message)
    (e : exn) :
  type_dispatch p w = (w', (out, inl e)) ->
  m_try_except (type_dispatch p) (deletion_handlers p) w
  = (w', ((out ++ [report p e])%list, inr tt)).
Proof.
  intros E; unfold m_try_except; rewrite E.
  destruct (find_deletion_handler p e) as [h [F R]].
  rewrite F, R; reflexivity.
Qed.

Lemma try_type_dispatch_returns (p : Path) (w w' : W) (out : list message)
    (u : unit) :
  type_dispatch p w = (w', (out, inr u)) ->
  m_try_except (type_dispatch p) (deletion_handlers p) w
  = (w', (out, inr u)).
Proof. intros E; unfold m_try_except; rewrite E; reflexivity. Qed.

(** The body prints one line when it returns, and nothing when it
    raises. *)
Lemma type_dispatch_output (p : Path) (w : W) :
  exists w' out r,
    type_dispatch p w = (w', (out, r)) /\
    match r with
    | inr _ => out = [Deleted_file p] \/ out = [Deleted_directory p]
               \/ out = [Skipping_non_file_dir p]
    | inl _ => out = []
    end.
Proof.
  unfold type_dispatch, test, mutate, lift_py, print; simpl; unfold m_bind.
  destruct (is_file p w) as [e|[|]]; simpl.
  - dispatch_case.
  - destruct (unlink p w) as [w1 [e|[]]]; dispatch_case.
  - destruct (is_symlink p w) as [e|[|]]; simpl.
    + dispatch_case.
    + destruct (unlink p w) as [w1 [e|[]]]; dispatch_case.
    + destruct (is_dir p w) as [e|[|]]; simpl.
      * dispatch_case.
      * destruct (rmtree p w) as [w1 [e|[]]]; dispatch_case.
      * dispatch_case.
Qed.

Lemma remove_path_absent (p home : Path) (bases : list string) (w : W) :
  exists_ p w = inr false ->
  remove_path p home bases w = (w, ([], inr tt)).
Proof.
  intros E; unfold remove_path, test; simpl; unfold m_bind.
  rewrite E; reflexivity.
Qed.

(** What the existence test raises leaves [remove_path]: the test is
    outside the [try]. *)
Lemma remove_path_existence_error (p home : Path) (bases : list string)
    (w : W) (e : exn) :
  exists_ p w = inl e ->
  remove_path p home bases w = (w, ([], inl e)).
Proof.
  intros E; unfold remove_path, test; simpl; unfold m_bind.
  rewrite E; reflexivity.
Qed.

Lemma remove_path_unsafe (p home : Path) (bases : list string) (w : W)
    (out : list message) :
  exists_ p w = inr true ->
  is_safe_to_delete p home bases = (out, inr false) ->
  remove_path p home bases w = (w, (out, inr tt)).
Proof.
  intros E G; unfold remove_path, test, lift_py; simpl; unfold m_bind.
  rewrite E, G; simpl. rewrite app_nil_r; reflexivity.
Qed.

Lemma remove_path_safe (p home : Path) (bases : list string) (w : W) :
  exists_ p w = inr true ->
  is_safe_to_delete p home bases = ([], inr true) ->
  remove_path p home bases w
  = m_try_except (type_dispatch p) (deletion_handlers p) w.
Proof.
  intros E G; unfold remove_path, test, lift_py; simpl; unfold m_bind.
  rewrite E, G; simpl.
  destruct (m_try_except _ _ w) as [w' [out r]]; reflexivity.
Qed.

Lemma for_each_app {A} (body : A -> M W unit) (l1 l2 : list A) (w : W) :
  for_each (l1 ++ l2) body w
  = match for_each l1 body w with
    | (w1, (o1, inl e)) => (w1, (o1, inl e))
    | (w1, (o1, inr _)) =>
        let '(w2, (o2, r)) := for_each l2 body w1 in
        (w2, ((o1 ++ o2)%list, r))
    end.
Proof.
  revert w; induction l1 as [|x l1 IH]; intros w; simpl.
  - destruct (for_each l2 body w) as [w2 [o2 r]]; reflexivity.
  - unfold m_bind. destruct (body x w) as [w1 [o1 [e|[]]]]; [reflexivity|].
    rewrite IH.
    destruct (for_each l1 body w1) as [w2 [o2 [e|[]]]]; [reflexivity|].
    destruct (for_each l2 body w2) as [w3 [o3 r3]].
    rewrite app_assoc; reflexivity.
Qed.

(** The loop stops at the first round that raises, in the world and
    with the exception of that round; the rounds after it are not
    run. *)
Lemma for_each_raises {A} (body : A -> M W unit) (x : A) (l : list A)
    (w w' : W) (out : list message) (e : exn) :
  body x w = (w', (out, inl e)) ->
  for_each (x :: l) body w = (w', (out, inl e)).
Proof. intros E; simpl; unfold m_bind; rewrite E; reflexivity. Qed.

(** C2: for an existing candidate that the safety gate rejects,
    [remove_path] returns the world it was given, unchanged, and what it
    printed is the warning of the gate: the outcome skipped-unsafe. *)
Theorem C2_unsafe_candidate_left_untouched
    (p home : Path) (bases : list string) (w : W) :
  exists_ p w = inr true ->
  verdict (is_safe_to_delete p home bases) = false ->
  exists out,
    remove_path p home bases w = (w, (out, inr tt)) /\
    outcome_of out = Some skipped_unsafe.
Proof.
  intros E V.
  destruct (is_safe_to_delete_returns p home bases) as [out [b [G _]]].
  rewrite G in V; unfold verdict in V; simpl in V; subst b.
  exists out; split.
  - exact (remove_path_unsafe _ _ _ _ _ E G).
  - exact (gate_false_output _ _ _ _ G).
Qed.

(** C6: for a candidate that does not exist, [remove_path] stops at the
    existence test: it returns the world it was given, unchanged (no
    deletion is tried, whatever the deletion would do), and prints
    nothing: the outcome skipped-absent. *)
Theorem C6_absent_candidate_is_noop
    (p home : Path) (bases : list string) (w : W) :
  exists_ p w = inr false ->
  exists out,
    remove_path p home bases w = (w, (out, inr tt)) /\
    outcome_of out = Some skipped_absent.
Proof.
  intros E; exists []; split;
    [exact (remove_path_absent _ _ _ _ E) | reflexivity].
Qed.

End Remover.

(** The remover on the sample world. *)
Lemma C2_unsafe_candidate_left_untouched_witness :
  exists_ (Path_ "/etc/passwd") sample_world = inr true /\
  verdict (is_safe_to_delete (Path_ "/etc/passwd") home_u
             (EXPECTED_BASES Linux)) = false /\
  exists out,
    remove_path (Path_ "/etc/passwd") home_u (EXPECTED_BASES Linux)
      sample_world = (sample_world, (out, inr tt)) /\
    outcome_of out = Some skipped_unsafe.
Proof.
  split; [reflexivity|]. split; [reflexivity|].
  apply (C2_unsafe_candidate_left_untouched (W := MemOS.world));
    reflexivity.
Defined.

Lemma C6_absent_candidate_is_noop_witness :
  exists_ (home_u // ".config/cursor-electron") sample_world = inr false /\
  exists out,
    remove_path (home_u // ".config/cursor-electron") home_u
      (EXPECTED_BASES Linux) sample_world = (sample_world, (out, inr tt)) /\
    outcome_of out = Some skipped_absent.
Proof.
  split; [reflexivity|].
  apply (C6_absent_candidate_is_noop (W := MemOS.world)); reflexivity.
Defined.

(** C7: [remove_path] does let an exception through.  With [~/.config]
    closed to searching, the existence test of the first candidate of
    the Linux table raises [PermissionError]; the test stands before
    the [try] of [remove_path], so the exception leaves [remove_path]
    and ends the loop and the whole deletion phase at that candidate.
    The candidates after it are never looked at: the old identifier
    file, which [remove_path] deletes when it is called on it, is still
    there. *)
Theorem C7_existence_test_error_aborts_sweep :
  let p := home_u // ".config/Cursor" in
  let q := home_u // ".cursor-machine-id" in
  let rp := fun c => remove_path c home_u (EXPECTED_BASES Linux) in
  let e := mkExn PermissionError "Permission denied" in
  exists_ p locked_world = inl e /\
  rp p locked_world = (locked_world, ([], inl e)) /\
  for_each [p; q] rp locked_world = (locked_world, ([], inl e)) /\
  deletion_phase home_u (linux_paths home_u) locked_world
  = (locked_world,
     ([Line "--- Removing Configuration Directories ---"], inl e)) /\
  In q (state_files (linux_paths home_u)) /\
  exists_ q locked_world = inr true /\
  (exists w', rp q locked_world = (w', ([Deleted_file q], inr tt)) /\
              exists_ q w' = inr false).
Proof.
  intros p q rp e.
  assert (X : exists_ p locked_world = inl e) by (vm_compute; reflexivity).
  assert (R : rp p locked_world = (locked_world, ([], inl e)))
    by exact (remove_path_existence_error _ _ _ _ _ X).
  split; [exact X|]. split; [exact R|].
  split; [exact (for_each_raises rp p [q] _ _ _ _ R)|].
  split.
  - vm_compute; reflexivity.
  - split; [simpl; tauto|]. split; [vm_compute; reflexivity|].
    eexists; split; vm_compute; reflexivity.
Qed.

(** The deletion phase on the sample world with the Linux table: the
    configuration directory is removed with its content, the protected
    cache directory is reported and the sweep goes on to the state
    files; nothing outside the table is touched. *)
Example deletion_phase_sample :
  let '(w, (out, r)) := deletion_phase home_u (linux_paths home_u) sample_world in
  r = inr tt /\
  out = [ Line "--- Removing Configuration Directories ---";
          Deleted_directory (home_u // ".config/Cursor");
          Line "--- Removing Cache Directories ---";
          Permission_denied_deleting (home_u // ".cache/Cursor");
          Line "--- Removing State & Other Files ---";
          Deleted_file (home_u // ".cursor-machine-id") ] /\
  map fst (MemOS.nodes w)
  = [ Path_ "/home"; home_u; home_u // ".config"; home_u // ".cache";
      home_u // ".cache/Cursor"; home_u // "notes";
      home_u // "notes/todo.txt"; Path_ "/etc"; Path_ "/etc/passwd" ].
Proof. vm_compute. repeat split. Qed.

(** Were the home directory itself among the candidates, the sweep would
    remove it with all it holds (see C3). *)
Example remove_path_home_itself :
  let '(w, (out, r)) :=
    remove_path home_u home_u (EXPECTED_BASES Linux) sample_world in
  out = [Deleted_directory home_u] /\
  map fst (MemOS.nodes w) = [ Path_ "/home"; Path_ "/etc"; Path_ "/etc/passwd" ].
Proof. vm_compute. split; reflexivity. Qed.

(* ------------------------------------------------------------------ *)
(** * The in-memory file system keeps the promises of [OSLaws] *)
(* ------------------------------------------------------------------ *)

Module MemOSFacts.
Import MemOS.

Lemma path_eqb_neq (p q : Path) : p <> q -> eqb p q = false.
Proof.
  intros N; destruct (eqb p q) eqn:E; [|reflexivity].
  apply path_eqb_eq in E; contradiction.
Qed.

Lemma lookup_delete_ne {A} (p q : Path) (l : list (Path * A)) :
  p <> q -> lookup q (delete p l) = lookup q l.
Proof.
  intros N; induction l as [|[x a] l IH]; simpl; [reflexivity|].
  destruct (eqb x p) eqn:E; simpl.
  - apply path_eqb_eq in E; subst x.
    rewrite (path_eqb_neq _ _ N); exact IH.
  - destruct (eqb x q); [reflexivity | exact IH].
Qed.

Lemma lookup_insert_eq {A} (p : Path) (a : A) (l : list (Path * A)) :
  lookup p (insert p a l) = Some a.
Proof. unfold insert; simpl; rewrite path_eqb_refl; reflexivity. Qed.

Lemma lookup_insert_ne {A} (p q : Path) (a : A) (l : list (Path * A)) :
  p <> q -> lookup q (insert p a l) = lookup q l.
Proof.
  intros N; unfold insert; simpl.
  rewrite (path_eqb_neq _ _ N); apply lookup_delete_ne; exact N.
Qed.

Lemma node_at_insert_ne (p q : Path) (n : node) (w : world) :
  p <> q ->
  node_at q (with_nodes w (insert p n (nodes w))) = node_at q w.
Proof.
  intros N; unfold node_at; simpl.
  destruct (tail q); [reflexivity | apply lookup_insert_ne; exact N].
Qed.

Lemma node_at_insert_Dir (p : Path) (w : world) :
  node_at p (with_nodes w (insert p Dir (nodes w))) = Some Dir.
Proof.
  unfold node_at; simpl.
  destruct (tail p); [reflexivity | apply lookup_insert_eq].
Qed.

Lemma os_mkdir_is_dir (p : Path) (w w' : world) :
  os_mkdir p w = (w', inr tt) -> mem_is_dir p w' = inr true.
Proof.
  unfold os_mkdir.
  destruct (lookup p (faults w)); [discriminate|].
  destruct (node_at p w); [discriminate|].
  destruct (resolve (parent p) w) as [[]|]; try discriminate.
  intros E; inversion E; subst.
  unfold mem_is_dir, resolve; rewrite node_at_insert_Dir; reflexivity.
Qed.

Lemma forgiven_is_dir (p : Path) (w1 w' : world) (e : exn) :
  match mem_is_dir p w1 with
  | inr true => (w1, ok tt)
  | _ => (w1, raise e)
  end = (w', inr tt) ->
  mem_is_dir p w' = inr true.
Proof.
  destruct (mem_is_dir p w1) as [?|[|]] eqn:D; intros E;
    inversion E; subst; exact D.
Qed.

Lemma mem_mkdir_fuel_is_dir (fuel : nat) (p : Path) (w w' : world) :
  mem_mkdir_fuel fuel p w = (w', inr tt) -> mem_is_dir p w' = inr true.
Proof.
  destruct fuel as [|fuel]; cbn [mem_mkdir_fuel].
  - destruct (os_mkdir p w) as [w1 [e|[]]] eqn:M.
    + destruct (isinstance e FileNotFoundError); [discriminate|].
      apply forgiven_is_dir.
    + intros E; inversion E; subst; exact (os_mkdir_is_dir _ _ _ M).
  - destruct (os_mkdir p w) as [w1 [e|[]]] eqn:M.
    + destruct (isinstance e FileNotFoundError).
      * destruct (eqb (parent p) p); [discriminate|].
        destruct (mem_mkdir_fuel fuel (parent p) w1) as [w2 [e2|[]]];
          [discriminate|].
        destruct (os_mkdir p w2) as [w3 [e3|[]]] eqn:M3.
        -- apply forgiven_is_dir.
        -- intros E; inversion E; subst; exact (os_mkdir_is_dir _ _ _ M3).
      * apply forgiven_is_dir.
    + intros E; inversion E; subst; exact (os_mkdir_is_dir _ _ _ M).
Qed.

(** What a successful [write_text] did: it put the file at the target,
    where no directory and no link was. *)
Lemma mem_write_text_inv (p : Path) (s : string) (w w' : world) :
  mem_write_text p s w = (w', inr tt) ->
  exists target,
    (node_at p w = Some (Symlink target) \/
     (target = p /\ forall t, node_at p w <> Some (Symlink t))) /\
    node_at target w <> Some Dir /\
    (forall t, node_at target w <> Some (Symlink t)) /\
    tail target <> [] /\
    w' = with_nodes w (insert target (File s) (nodes w)).
Proof.
  unfold mem_write_text.
  destruct (lookup p (faults w)); [discriminate|].
  set (target := match node_at p w with Some (Symlink t) => t | _ => p end).
  intros E; exists target.
  assert (T : node_at p w = Some (Symlink target) \/
              (target = p /\ forall t, node_at p w <> Some (Symlink t))).
  { unfold target; destruct (node_at p w) as [[]|];
      try (right; split; [reflexivity | discriminate]).
    left; reflexivity. }
  split; [exact T|].
  assert (NT : tail target <> []).
  { intros Z. unfold node_at at 1 in E. rewrite Z in E. discriminate. }
  destruct (node_at target w) as [[]|] eqn:N; try discriminate;
    (destruct (resolve (parent target) w) as [[]|]; try discriminate;
     inversion E; subst;
     repeat split; try discriminate; auto).
Qed.

Lemma node_at_insert_File (p : Path) (s : string) (w : world) :
  tail p <> [] ->
  node_at p (with_nodes w (insert p (File s) (nodes w))) = Some (File s).
Proof.
  intros N; unfold node_at; simpl.
  destruct (tail p); [contradiction | apply lookup_insert_eq].
Qed.

Lemma mem_write_text_read_text (p : Path) (s : string) (w w' : world) :
  mem_write_text p s w = (w', inr tt) -> mem_read_text p w' = Some s.
Proof.
  intros E.
  destruct (mem_write_text_inv _ _ _ _ E) as [t [T [ND [NL [NT ->]]]]].
  unfold mem_read_text, resolve.
  destruct T as [T | [-> T]].
  - assert (N : t <> p) by (intros ->; exact (NL _ T)).
    rewrite (node_at_insert_ne _ _ _ _ N), T.
    rewrite (node_at_insert_File _ _ _ NT); reflexivity.
  - rewrite (node_at_insert_File _ _ _ NT); reflexivity.
Qed.

Lemma mem_write_text_keeps_dir (p q : Path) (s : string) (w w' : world) :
  mem_write_text p s w = (w', inr tt) ->
  mem_is_dir q w = inr true -> mem_is_dir q w' = inr true.
Proof.
  intros E D.
  destruct (mem_write_text_inv _ _ _ _ E) as [t [_ [ND [NL [_ ->]]]]].
  unfold mem_is_dir, resolve in *.
  destruct (node_at q w) as [[| |t'|]|] eqn:Q; try discriminate.
  - assert (N : t <> q) by (intros ->; exact (ND Q)).
    rewrite (node_at_insert_ne _ _ _ _ N), Q; reflexivity.
  - assert (N : t <> q) by (intros ->; exact (NL _ Q)).
    rewrite (node_at_insert_ne _ _ _ _ N), Q.
    destruct (node_at t' w) as [[| |t''|]|] eqn:Q'; try discriminate.
    assert (N' : t <> t') by (intros ->; exact (ND Q')).
    rewrite (node_at_insert_ne _ _ _ _ N'), Q'; reflexivity.
Qed.

#[global] Instance MemOS_Laws : OSLaws world := {
  read_text := mem_read_text;
  mkdir_parents_is_dir := fun p w w' =>
    mem_mkdir_fuel_is_dir (List.length (tail p)) p w w';
  write_text_read_text := mem_write_text_read_text;
  write_text_keeps_dir := mem_write_text_keeps_dir
}.

End MemOSFacts.

(* ------------------------------------------------------------------ *)
(** * The file writers *)
(* ------------------------------------------------------------------ *)

Section Writers.

Context {W : Type} `{OSLaws W}.

(** [create_file_with_content] step by step: the directory first, then
    the file, and one printed line whatever happens. *)
Lemma create_file_with_content_steps (path : Path) (content description : string)
    (w : W) :
  create_file_with_content path content description w
  = match mkdir_parents (parent path) w with
    | (w1, inl e) => (w1, ([creation_report description path e], inr tt))
    | (w1, inr _) =>
        match write_text path content w1 with
        | (w2, inl e) => (w2, ([creation_report description path e], inr tt))
        | (w2, inr _) => (w2, ([Created description path], inr tt))
        end
    end.
Proof.
  unfold create_file_with_content, m_try_except, mutate, lift_py, print;
    simpl; unfold m_bind.
  assert (R : forall (e : exn) (w0 : W),
             match find_handler e
                     [ (PermissionError, fun _ : exn =>
                          fun w : W => (w, ([Permission_denied_creating path], inr tt)));
                       (OSError, fun e0 : exn =>
                          fun w : W => (w, ([OS_error_creating path e0], inr tt)));
                       (Exception, fun e0 : exn =>
                          fun w : W =>
                            (w, ([Unexpected_error_creating description path e0],
                                 inr tt))) ] with
             | Some h =>
                 match h e w0 with
                 | (w'', (out', r)) => (w'', (([] ++ out')%list, r))
                 end
             | None => (w0, ([], inl e))
             end = (w0, ([creation_report description path e], inr tt))).
  { intros e w0; unfold creation_report; simpl.
    destruct (isinstance e PermissionError); [reflexivity|].
    destruct (isinstance e OSError); [reflexivity|].
    rewrite isinstance_Exception; reflexivity. }
  destruct (mkdir_parents (parent path) w) as [w1 [e|[]]]; simpl.
  - apply R.
  - destruct (write_text path content w1) as [w2 [e|[]]]; simpl.
    + apply R.
    + reflexivity.
Qed.


End Writers.


(* ------------------------------------------------------------------ *)
(** * Float arithmetic on timestamps *)
(* ------------------------------------------------------------------ *)

Module Float64Facts.
Import float64.
Local Open Scope Z_scope.

Lemma digits2_pos_size (p : positive) : digits2_pos p = Pos.size p.
Proof. induction p; simpl; congruence. Qed.

Lemma Zdigits2_log2 (m : Z) : 0 < m -> Zdigits2 m = Z.log2 m + 1.
Proof.
  destruct m as [|p|p]; try lia; intros _; simpl.
  rewrite digits2_pos_size.
  destruct p; simpl; lia.
Qed.

(** The number of binary digits of a positive integer. *)
Lemma Zdigits2_unique (m k : Z) :
  2 ^ (k - 1) <= m < 2 ^ k -> 1 <= k -> Zdigits2 m = k.
Proof.
  intros B K.
  assert (0 < m) by (pose proof (Z.pow_pos_nonneg 2 (k - 1)); lia).
  rewrite Zdigits2_log2 by assumption.
  rewrite (Z.log2_unique m (k - 1)); try lia.
  replace (Z.succ (k - 1)) with k by lia; exact B.
Qed.

Lemma iter_pos_nat {A} (f : A -> A) (p : positive) (x : A) :
  iter_pos f p x = Nat.iter (Pos.to_nat p) f x.
Proof.
  revert x; induction p as [p IH|p IH|]; intros x; cbn [iter_pos].
  - rewrite !IH, Pos2Nat.inj_xI.
    replace (S (2 * Pos.to_nat p))%nat
      with (Pos.to_nat p + (Pos.to_nat p + 1))%nat by lia.
    rewrite !Nat.iter_add; reflexivity.
  - rewrite !IH, Pos2Nat.inj_xO.
    replace (2 * Pos.to_nat p)%nat with (Pos.to_nat p + Pos.to_nat p)%nat by lia.
    rewrite Nat.iter_add; reflexivity.
  - reflexivity.
Qed.

Lemma shr_1_nonneg (m : Z) (r s : bool) :
  0 <= m ->
  shr_1 (Build_shr_record m r s) = Build_shr_record (m / 2) (Z.odd m) (r || s).
Proof.
  intros M. rewrite <- Z.div2_div.
  destruct m as [|[p|p|]|p]; try lia; reflexivity.
Qed.

(** Shifting right [k] times: the mantissa is divided by [2 ^ k]. *)
Lemma shr_iter_m (k : nat) (mrs : shr_record) :
  0 <= shr_m mrs ->
  shr_m (Nat.iter k shr_1 mrs) = shr_m mrs / 2 ^ Z.of_nat k.
Proof.
  intros M; induction k as [|k IH].
  - simpl; rewrite Z.div_1_r; reflexivity.
  - rewrite Nat.iter_succ, Nat2Z.inj_succ, Z.pow_succ_r by lia.
    destruct (Nat.iter k shr_1 mrs) as [m r s] eqn:E; cbn [shr_m] in IH.
    assert (0 <= m) by (rewrite IH; apply Z.div_pos; lia).
    rewrite shr_1_nonneg by assumption; cbn [shr_m].
    rewrite IH, Z.div_div by lia. f_equal; lia.
Qed.

(** Shifting right commutes with adding a multiple of [2 ^ k]. *)
Lemma shr_iter_add (k : nat) (c m : Z) (r s : bool) :
  0 <= c -> 0 <= m ->
  Nat.iter k shr_1 (Build_shr_record (c * 2 ^ Z.of_nat k + m) r s)
  = let x := Nat.iter k shr_1 (Build_shr_record m r s) in
    Build_shr_record (c + shr_m x) (shr_r x) (shr_s x).
Proof.
  revert c; induction k as [|k IH]; intros c C M.
  - simpl. f_equal; lia.
  - rewrite !Nat.iter_succ.
    replace (c * 2 ^ Z.of_nat (S k)) with ((2 * c) * 2 ^ Z.of_nat k)
      by (rewrite Nat2Z.inj_succ, Z.pow_succ_r by lia; ring).
    rewrite IH by lia.
    pose proof (shr_iter_m k (Build_shr_record m r s) M) as Hm.
    destruct (Nat.iter k shr_1 (Build_shr_record m r s)) as [m' r' s'] eqn:E.
    cbn [shr_m shr_r shr_s] in *.
    assert (0 <= m') by (rewrite Hm; apply Z.div_pos; lia).
    rewrite !shr_1_nonneg by lia; cbn [shr_m shr_r shr_s].
    f_equal.
    + rewrite Z.add_comm, Z.mul_comm, Z.div_add by lia; lia.
    + rewrite Z.add_comm. apply Z.odd_add_mul_2.
Qed.

Lemma round_nearest_even_add (K a : Z) (l : location) :
  Z.even K = true ->
  round_nearest_even (K + a) l = K + round_nearest_even a l.
Proof.
  intros E; destruct l as [|[]]; simpl; try lia.
  rewrite Z.even_add, E. destruct (Z.even a); simpl; lia.
Qed.

Lemma round_nearest_even_bounds (a : Z) (l : location) :
  a <= round_nearest_even a l <= a + 1.
Proof. destruct l as [|[]]; simpl; try lia. destruct (Z.even a); lia. Qed.

Lemma Zdigits2_bounds (m : Z) :
  0 < m -> 2 ^ (Zdigits2 m - 1) <= m < 2 ^ Zdigits2 m.
Proof.
  intros M. rewrite Zdigits2_log2 by assumption.
  replace (Z.log2 m + 1 - 1) with (Z.log2 m) by lia.
  replace (Z.log2 m + 1) with (Z.succ (Z.log2 m)) by lia.
  apply Z.log2_spec; assumption.
Qed.

Lemma shr_m_of_loc (m : Z) (l : location) : shr_m (shr_record_of_loc m l) = m.
Proof. destruct l as [|[]]; reflexivity. Qed.

Lemma loc_of_shr_record_of_loc (m : Z) (l : location) :
  loc_of_shr_record (shr_record_of_loc m l) = l.
Proof. destruct l as [|[]]; reflexivity. Qed.

Lemma shifted_m (m : Z) (l : location) (delta : Z) :
  0 <= m -> 0 <= delta -> shr_m (shifted m l delta) = m / 2 ^ delta.
Proof.
  intros M D; unfold shifted; destruct delta as [|p|p]; try lia.
  - rewrite shr_m_of_loc, Z.div_1_r; reflexivity.
  - rewrite iter_pos_nat, shr_iter_m by (rewrite shr_m_of_loc; exact M).
    rewrite shr_m_of_loc, positive_nat_Z; reflexivity.
Qed.

Lemma rounded_bounds (m : Z) (l : location) (delta : Z) :
  0 <= m -> 0 <= delta ->
  m / 2 ^ delta <= rounded m l delta <= m / 2 ^ delta + 1.
Proof.
  intros M D; unfold rounded; cbv zeta.
  rewrite <- (shifted_m m l delta M D).
  apply round_nearest_even_bounds.
Qed.

(** [binary_round_aux] on a positive mantissa of [53 + delta] digits:
    the mantissa is shifted by [delta] bits and rounded; a mantissa
    rounded up to [2 ^ 53] is renormalised. *)
Lemma binary_round_aux_eval (m e delta : Z) (l : location) :
  0 < m -> Zdigits2 m = 53 + delta -> 0 <= delta ->
  -1074 <= e + delta -> e + delta + 1 <= 971 ->
  binary_round_aux 53 1024 false m e l
  = if rounded m l delta <? 2 ^ 53
    then S754_finite false (Z.to_pos (rounded m l delta)) (e + delta)
    else S754_finite false (Z.to_pos (2 ^ 52)) (e + delta + 1).
Proof.
  intros M Dg D Lo Hi.
  pose proof (Zdigits2_bounds m M) as B; rewrite Dg in B.
  assert (Q : 2 ^ 52 <= m / 2 ^ delta < 2 ^ 53).
  { replace (53 + delta - 1) with (52 + delta) in B by lia.
    rewrite !Z.pow_add_r in B by lia.
    assert (0 < 2 ^ delta) by (apply Z.pow_pos_nonneg; lia).
    split.
    - apply Z.div_le_lower_bound; lia.
    - apply Z.div_lt_upper_bound; lia. }
  pose proof (rounded_bounds m l delta (Z.lt_le_incl _ _ M) D) as R.
  unfold binary_round_aux, shr_fexp.
  rewrite Dg.
  replace (fexp 53 1024 (53 + delta + e)) with (e + delta)
    by (unfold fexp, emin; lia).
  replace (e + delta - e) with delta by lia.
  assert (S1 : shr (shr_record_of_loc m l) e delta
               = (shifted m l delta, e + delta)).
  { unfold shr, shifted; destruct delta as [|p|p]; try lia;
      [rewrite Z.add_0_r|]; reflexivity. }
  rewrite S1.
  fold (rounded m l delta).
  set (m1 := rounded m l delta) in *.
  destruct (Z.ltb_spec m1 (2 ^ 53)) as [L|L].
  - assert (Dg1 : Zdigits2 m1 = 53) by (apply Zdigits2_unique; lia).
    rewrite Dg1.
    replace (fexp 53 1024 (53 + (e + delta))) with (e + delta)
      by (unfold fexp, emin; lia).
    replace (e + delta - (e + delta)) with 0 by lia.
    cbn [shr shr_record_of_loc shr_m].
    destruct m1 as [|p|p] eqn:E1; try lia.
    replace (e + delta <=? 1024 - 53) with true by (symmetry; apply Z.leb_le; lia).
    reflexivity.
  - assert (E1 : m1 = 2 ^ 53) by lia.
    rewrite E1.
    replace (Zdigits2 (2 ^ 53)) with 54 by reflexivity.
    replace (fexp 53 1024 (54 + (e + delta))) with (e + delta + 1)
      by (unfold fexp, emin; lia).
    replace (e + delta + 1 - (e + delta)) with 1 by lia.
    cbn.
    replace (e + delta + 1 <=? 971) with true by (symmetry; apply Z.leb_le; lia).
    reflexivity.
Qed.

Lemma pos_iter_xO (p d : positive) :
  Zpos (Pos.iter xO p d) = Zpos p * 2 ^ Zpos d.
Proof.
  induction d as [|d IH] using Pos.peano_ind.
  - cbn [Pos.iter]. lia.
  - rewrite Pos.iter_succ, Pos2Z.inj_xO, IH, Pos2Z.inj_succ,
      Z.pow_succ_r by lia.
    ring.
Qed.

(** [float(n)] is exact for a positive integer of at most 52 bits: the
    mantissa is [n] shifted to 53 bits. *)
Lemma of_int_eval (n k : Z) :
  2 ^ (k - 1) <= n < 2 ^ k -> 1 <= k <= 52 ->
  float64.of_int n = S754_finite false (Z.to_pos (n * 2 ^ (53 - k))) (k - 53).
Proof.
  intros B K.
  assert (N : 0 < n) by (pose proof (Z.pow_pos_nonneg 2 (k - 1)); lia).
  pose proof (Zdigits2_unique n k B ltac:(lia)) as Dg.
  destruct n as [|p|p]; try lia.
  unfold float64.of_int, float64.prec, float64.emax, binary_normalize,
    binary_round.
  change (Zpos (digits2_pos p)) with (Zdigits2 (Zpos p)); rewrite Dg.
  replace (fexp 53 1024 (k + 0)) with (k - 53) by (unfold fexp, emin; lia).
  unfold shl_align.
  destruct (k - 53 - 0) as [|d|d] eqn:E; try lia.
  assert (P2 : 0 < 2 ^ (53 - k)) by (apply Z.pow_pos_nonneg; lia).
  assert (M : Zpos (Pos.iter xO p d) = Zpos p * 2 ^ (53 - k))
    by (rewrite pos_iter_xO; f_equal; f_equal; lia).
  rewrite M.
  assert (Bm : 2 ^ 52 <= Zpos p * 2 ^ (53 - k) < 2 ^ 53).
  { assert (E52 : 2 ^ 52 = 2 ^ (k - 1) * 2 ^ (53 - k))
      by (rewrite <- Z.pow_add_r by lia; f_equal; lia).
    assert (E53 : 2 ^ 53 = 2 ^ k * 2 ^ (53 - k))
      by (rewrite <- Z.pow_add_r by lia; f_equal; lia).
    split.
    - rewrite E52; apply Z.mul_le_mono_nonneg_r; lia.
    - rewrite E53; apply Z.mul_lt_mono_pos_r; lia. }
  rewrite (binary_round_aux_eval _ (k - 53) 0 loc_Exact); try lia.
  - unfold rounded, shifted; cbn [shr_record_of_loc shr_m loc_of_shr_record
                                   round_nearest_even].
    replace (Zpos p * 2 ^ (53 - k) <? 2 ^ 53) with true
      by (symmetry; apply Z.ltb_lt; lia).
    f_equal; lia.
  - apply Zdigits2_unique; lia.
Qed.

(** Rounding after a shift commutes with adding an even multiple of the
    unit. *)
Lemma rounded_add (c m d : Z) :
  0 <= c -> 0 <= m -> 0 < d -> Z.even c = true ->
  rounded (c * 2 ^ d + m) loc_Exact d = c + rounded m loc_Exact d.
Proof.
  intros C M D E; unfold rounded, shifted; cbv zeta.
  destruct d as [|p|p]; try lia.
  cbn [shr_record_of_loc].
  rewrite !iter_pos_nat.
  pose proof (shr_iter_add (Pos.to_nat p) c m false false C M) as X.
  rewrite positive_nat_Z in X; rewrite X; cbv zeta.
  destruct (Nat.iter (Pos.to_nat p) shr_1 (Build_shr_record m false false))
    as [m' r' s'].
  cbn [shr_m shr_r shr_s].
  replace (loc_of_shr_record (Build_shr_record (c + m') r' s'))
    with (loc_of_shr_record (Build_shr_record m' r' s'))
    by (destruct r', s'; reflexivity).
  apply round_nearest_even_add; exact E.
Qed.

(** [binary_normalize] of a positive integer mantissa that needs a right
    shift by [delta > 0] bits. *)
Lemma binary_normalize_eval (m e delta : Z) :
  0 < m -> Zdigits2 m = 53 + delta -> 0 < delta ->
  -1074 <= e + delta -> e + delta + 1 <= 971 ->
  binary_normalize 53 1024 m e false
  = if rounded m loc_Exact delta <? 2 ^ 53
    then S754_finite false (Z.to_pos (rounded m loc_Exact delta)) (e + delta)
    else S754_finite false (Z.to_pos (2 ^ 52)) (e + delta + 1).
Proof.
  intros M Dg D Lo Hi.
  destruct m as [|p|p]; try lia.
  unfold binary_normalize, binary_round.
  change (Zpos (digits2_pos p)) with (Zdigits2 (Zpos p)); rewrite Dg.
  replace (fexp 53 1024 (53 + delta + e)) with (e + delta)
    by (unfold fexp, emin; lia).
  unfold shl_align.
  destruct (e + delta - e) as [|q|q] eqn:E; try lia;
    apply binary_round_aux_eval; assumption || lia.
Qed.

(** Adding a fraction [u < 1] to the float of an integer [s] of 31 bits:
    the result is [s] plus a multiple of [2 ^ -22] that depends on [u]
    alone. *)
Lemma add_eval (s : Z) (mu : positive) (eu : Z) :
  2 ^ 30 <= s <= 2 ^ 31 - 2 -> eu <= -23 -> Zpos mu < 2 ^ (- eu) ->
  SFadd 53 1024 (float64.of_int s) (S754_finite false mu eu)
  = S754_finite false
      (Z.to_pos (s * 2 ^ 22 + rounded (Zpos mu) loc_Exact (-22 - eu))) (-22)
  /\ 0 <= rounded (Zpos mu) loc_Exact (-22 - eu) <= 2 ^ 22.
Proof.
  intros S E U.
  set (d := -22 - eu).
  assert (D : 0 < d) by (unfold d; lia).
  assert (P2 : 0 < 2 ^ d) by (apply Z.pow_pos_nonneg; lia).
  assert (U' : Zpos mu < 2 ^ 22 * 2 ^ d).
  { rewrite <- Z.pow_add_r by lia.
    replace (22 + d) with (- eu) by (unfold d; lia); exact U. }
  assert (R : 0 <= rounded (Zpos mu) loc_Exact d <= 2 ^ 22).
  { pose proof (rounded_bounds (Zpos mu) loc_Exact d ltac:(lia) ltac:(lia)) as B.
    assert (0 <= Zpos mu / 2 ^ d) by (apply Z.div_pos; lia).
    assert (Zpos mu / 2 ^ d < 2 ^ 22) by (apply Z.div_lt_upper_bound; lia).
    lia. }
  split; [|exact R].
  rewrite (of_int_eval s 31) by lia.
  replace (53 - 31) with 22 by lia; replace (31 - 53) with (-22) by lia.
  assert (Sp : 0 < s * 2 ^ 22) by lia.
  destruct (s * 2 ^ 22) as [|ms|ms] eqn:Es; try lia.
  cbn [Z.to_pos].
  unfold SFadd.
  rewrite (Z.min_r (-22) eu) by lia.
  unfold shl_align at 2; rewrite Z.sub_diag.
  unfold shl_align.
  destruct (eu - -22) as [|q|q] eqn:Eq; try lia.
  cbn [fst cond_Zopp].
  rewrite pos_iter_xO.
  replace (Zpos q) with d by (unfold d; lia).
  rewrite <- Es.
  set (M := s * 2 ^ 22 * 2 ^ d + Zpos mu).
  assert (Mb : 2 ^ 52 * 2 ^ d <= M < 2 ^ 53 * 2 ^ d).
  { unfold M.
    assert (2 ^ 30 * 2 ^ 22 * 2 ^ d <= s * 2 ^ 22 * 2 ^ d)
      by (apply Z.mul_le_mono_nonneg_r; lia).
    assert (s * 2 ^ 22 * 2 ^ d <= (2 ^ 31 - 2) * 2 ^ 22 * 2 ^ d)
      by (apply Z.mul_le_mono_nonneg_r; lia).
    change (2 ^ 30 * 2 ^ 22) with (2 ^ 52) in *.
    nia. }
  rewrite (binary_normalize_eval M eu d); try lia.
  - unfold M. rewrite rounded_add; try lia.
    + replace (s * 2 ^ 22 + rounded (Zpos mu) loc_Exact d <? 2 ^ 53) with true
        by (symmetry; apply Z.ltb_lt; lia).
      f_equal; unfold d; lia.
    + rewrite Z.even_mul; replace (Z.even (2 ^ 22)) with true by reflexivity.
      apply orb_true_r.
  - apply Zdigits2_unique; [|lia].
    replace (53 + d - 1) with (52 + d) by lia.
    rewrite !Z.pow_add_r by lia. exact Mb.
Qed.

Lemma of_int_1000 : float64.of_int 1000 = S754_finite false 8796093022208000 (-43).
Proof. reflexivity. Qed.

Lemma of_int_1000000 :
  float64.of_int 1000000 = S754_finite false 8589934592000000 (-33).
Proof. reflexivity. Qed.

(** Multiplying by 1000 a float [s + R * 2 ^ -22] between [2 ^ 40 / 1000]
    and [2 ^ 31]: the result is [1000 * s] plus a multiple of [2 ^ -12]
    that depends on [R] alone. *)
Lemma mul_eval (s R : Z) :
  1099511628 <= s <= 2 ^ 31 - 2 -> 0 <= R <= 2 ^ 22 ->
  SFmul 53 1024 (S754_finite false (Z.to_pos (s * 2 ^ 22 + R)) (-22))
    (float64.of_int 1000)
  = S754_finite false
      (Z.to_pos (s * 4096000 + rounded (R * (1000 * 2 ^ 43)) loc_Exact 53))
      (-12)
  /\ 0 <= rounded (R * (1000 * 2 ^ 43)) loc_Exact 53.
Proof.
  intros S HR.
  assert (Q : 0 <= rounded (R * (1000 * 2 ^ 43)) loc_Exact 53 <= 4096001).
  { pose proof (rounded_bounds (R * (1000 * 2 ^ 43)) loc_Exact 53
                  ltac:(lia) ltac:(lia)) as B.
    assert (0 <= R * (1000 * 2 ^ 43) / 2 ^ 53) by (apply Z.div_pos; lia).
    assert (R * (1000 * 2 ^ 43) / 2 ^ 53 < 4096001)
      by (apply Z.div_lt_upper_bound; lia).
    lia. }
  split; [|lia].
  rewrite of_int_1000.
  assert (Tp : 0 < s * 2 ^ 22 + R) by lia.
  destruct (s * 2 ^ 22 + R) as [|mt|mt] eqn:Et; try lia.
  cbn [Z.to_pos].
  unfold SFmul; cbn [xorb].
  rewrite Pos2Z.inj_mul, <- Et.
  replace (-22 + -43) with (-65) by lia.
  replace ((s * 2 ^ 22 + R) * 8796093022208000)
    with (s * 4096000 * 2 ^ 53 + R * (1000 * 2 ^ 43)) by lia.
  rewrite (binary_round_aux_eval _ (-65) 53 loc_Exact); try lia.
  - rewrite rounded_add; try lia.
    + match goal with |- (if ?b then _ else _) = _ =>
        replace b with true by (symmetry; apply Z.ltb_lt; lia) end.
      reflexivity.
    + rewrite Z.even_mul; replace (Z.even 4096000) with true by reflexivity.
      apply orb_true_r.
  - apply Zdigits2_unique; lia.
Qed.


(** The float of [us / 1e6] for [0 < us < 10 ** 6] is a positive float
    below 1 (with an exponent far below [-22]). *)
Lemma div_frac (us : Z) :
  1 <= us < 1000000 ->
  exists mu eu,
    SFdiv 53 1024 (float64.of_int us) (float64.of_int 1000000) = S754_finite false mu eu /\
    eu <= -23 /\ Zpos mu < 2 ^ (- eu).
Proof.
  intros U.
  set (k := Z.log2 us + 1).
  assert (B : 2 ^ (k - 1) <= us < 2 ^ k).
  { unfold k. replace (Z.log2 us + 1 - 1) with (Z.log2 us) by lia.
    replace (Z.log2 us + 1) with (Z.succ (Z.log2 us)) by lia.
    apply Z.log2_spec; lia. }
  assert (K : 1 <= k <= 20).
  { unfold k. pose proof (Z.log2_nonneg us).
    assert (Z.log2 us < 20) by (apply Z.log2_lt_pow2; lia). lia. }
  rewrite (of_int_eval us k B) by lia.
  rewrite of_int_1000000.
  set (Zk := 2 ^ (53 - k)).
  assert (Zk33 : 2 ^ 33 <= Zk) by (apply Z.pow_le_mono_r; lia).
  assert (Y0 : 2 ^ (73 - k) = 2 ^ 20 * Zk)
    by (unfold Zk; rewrite <- Z.pow_add_r by lia; f_equal; lia).
  assert (Y1 : 2 ^ (73 - k) = 2 * 2 ^ (72 - k))
    by (rewrite <- Z.pow_succ_r by lia; f_equal; lia).
  assert (Y2 : 2 ^ (72 - k) = 2 * 2 ^ (71 - k))
    by (rewrite <- Z.pow_succ_r by lia; f_equal; lia).
  assert (Mx : 2 ^ 52 <= us * Zk < 2 ^ 53).
  { assert (E52 : 2 ^ 52 = 2 ^ (k - 1) * Zk)
      by (unfold Zk; rewrite <- Z.pow_add_r by lia; f_equal; lia).
    assert (E53 : 2 ^ 53 = 2 ^ k * Zk)
      by (unfold Zk; rewrite <- Z.pow_add_r by lia; f_equal; lia).
    split.
    - rewrite E52; apply Z.mul_le_mono_nonneg_r; lia.
    - rewrite E53; apply Z.mul_lt_mono_pos_r; lia. }
  assert (Mu : us * Zk <= 999999 * Zk)
    by (apply Z.mul_le_mono_nonneg_r; lia).
  destruct (us * Zk) as [|mx|mx] eqn:Emx; try lia.
  cbn [Z.to_pos].
  unfold SFdiv; cbn [xorb]. unfold SFdiv_core_binary.
  replace (Zdigits2 (Zpos mx)) with 53
    by (symmetry; apply Zdigits2_unique; lia).
  replace (Zdigits2 8589934592000000) with 53 by reflexivity.
  replace (Z.min (fexp 53 1024 (53 + (k - 53) - (53 + -33))) (k - 53 - -33))
    with (k - 73) by (unfold fexp, emin; lia).
  replace (k - 53 - -33 - (k - 73)) with 53 by lia.
  rewrite Z.shiftl_mul_pow2 by lia.
  pose proof (Z_div_mod (Zpos mx * 2 ^ 53) 8589934592000000 ltac:(lia)) as DM.
  destruct (Z.div_eucl (Zpos mx * 2 ^ 53) 8589934592000000) as [q r].
  destruct DM as [DM Rr].
  assert (Qb : 2 ^ 52 <= q < 2 ^ 54) by lia.
  assert (Key : q + 2 < 2 ^ (73 - k)) by lia.
  set (l := new_location 8589934592000000 r).
  destruct (Z.ltb_spec q (2 ^ 53)) as [Q53|Q53].
  - rewrite (binary_round_aux_eval q (k - 73) 0 l); try lia.
    + pose proof (rounded_bounds q l 0 ltac:(lia) ltac:(lia)) as Rb.
      rewrite Z.div_1_r in Rb.
      destruct (Z.ltb_spec (rounded q l 0) (2 ^ 53)) as [L|L].
      * eexists; eexists; split; [reflexivity|]. split; [lia|].
        rewrite Z2Pos.id by lia.
        replace (- (k - 73 + 0)) with (73 - k) by lia. lia.
      * eexists; eexists; split; [reflexivity|]. split; [lia|].
        replace (- (k - 73 + 0 + 1)) with (72 - k) by lia.
        rewrite Z2Pos.id by lia. lia.
    + apply Zdigits2_unique; lia.
  - rewrite (binary_round_aux_eval q (k - 73) 1 l); try lia.
    + pose proof (rounded_bounds q l 1 ltac:(lia) ltac:(lia)) as Rb.
      assert (q / 2 ^ 1 * 2 <= q)
        by (pose proof (Z.mul_div_le q (2 ^ 1) ltac:(lia)); lia).
      assert (2 ^ 52 <= q / 2 ^ 1) by (apply Z.div_le_lower_bound; lia).
      destruct (Z.ltb_spec (rounded q l 1) (2 ^ 53)) as [L|L].
      * eexists; eexists; split; [reflexivity|]. split; [lia|].
        rewrite Z2Pos.id by lia.
        replace (- (k - 73 + 1)) with (72 - k) by lia. lia.
      * eexists; eexists; split; [reflexivity|]. split; [lia|].
        replace (- (k - 73 + 1 + 1)) with (71 - k) by lia.
        rewrite Z2Pos.id by lia. lia.
    + apply Zdigits2_unique; lia.
Qed.

Lemma to_int_eval (m : positive) :
  float64.to_int (S754_finite false m (-12)) = inr (Zpos m / 4096).
Proof. reflexivity. Qed.

(** The milliseconds of a timestamp between 2004-11-03 19:53:48 and
    2038-01-19 03:14:06 UTC, as the script computes them in floats:
    [1000 * s] and a part that depends on the microsecond alone. *)
Lemma int_times_1000_timestamp (s us : Z) :
  1099511628 <= s <= 2 ^ 31 - 2 -> 0 <= us < 1000000 ->
  int_times_1000
    (float64.add (float64.of_int s)
       (float64.div (float64.of_int us) (float64.of_int 1000000)))
  = inr (1000 * s + frac_ms us).
Proof.
  intros S U.
  unfold int_times_1000, frac_ms, float64.add, float64.div, float64.mul,
    float64.prec, float64.emax.
  assert (C : us = 0 \/ 1 <= us < 1000000) by lia.
  destruct C as [-> | C].
  - change (SFdiv 53 1024 (float64.of_int 0) (float64.of_int 1000000))
      with (S754_zero false).
    rewrite (of_int_eval s 31) by lia.
    replace (53 - 31) with 22 by lia; replace (31 - 53) with (-22) by lia.
    cbn [SFadd].
    destruct (mul_eval s 0 ltac:(lia) ltac:(lia)) as [Mul _].
    rewrite Z.add_0_r in Mul; rewrite Mul.
    change (rounded (0 * (1000 * 2 ^ 43)) loc_Exact 53) with 0.
    rewrite to_int_eval, Z.add_0_r, Z2Pos.id by lia.
    f_equal. replace (s * 4096000) with (1000 * s * 4096) by lia.
    rewrite Z.div_mul by lia. lia.
  - destruct (div_frac us C) as [mu [eu [Dv [E Ub]]]].
    rewrite Dv.
    destruct (add_eval s mu eu ltac:(lia) E Ub) as [Add R].
    rewrite Add.
    destruct (mul_eval s _ S R) as [Mul Q].
    rewrite Mul, to_int_eval, Z2Pos.id by lia.
    f_equal. replace (s * 4096000) with (1000 * s * 4096) by lia.
    rewrite Z.div_add_l by lia. reflexivity.
Qed.

(** Two timestamps 90 days apart in that period, with the same
    microsecond, are 7,776,000,000 milliseconds apart. *)
Lemma timestamps_90_days_apart (s us : Z) :
  1099511628 <= s -> s + 7776000 <= 2 ^ 31 - 2 -> 0 <= us < 1000000 ->
  exists a,
    int_times_1000
      (float64.add (float64.of_int s)
         (float64.div (float64.of_int us) (float64.of_int 1000000)))
    = inr a /\
    int_times_1000
      (float64.add (float64.of_int (s + 7776000))
         (float64.div (float64.of_int us) (float64.of_int 1000000)))
    = inr (a + 7776000000).
Proof.
  intros Lo Hi U.
  exists (1000 * s + frac_ms us); split.
  - apply int_times_1000_timestamp; lia.
  - rewrite int_times_1000_timestamp by lia. f_equal; lia.
Qed.

End Float64Facts.

(* ------------------------------------------------------------------ *)
(** * The trial record *)
(* ------------------------------------------------------------------ *)

Lemma microsecond_of_clock (local : Z -> Z) (ns : Z) :
  (0 <= microsecond (datetime_of_clock local ns) < 1000000)%Z.
Proof.
  unfold datetime_of_clock; cbn [microsecond].
  pose proof (Z.mod_pos_bound ns 1000000000 ltac:(lia)).
  split; [apply Z.div_pos | apply Z.div_lt_upper_bound]; lia.
Qed.

Ltac step_reduce := cbv beta iota zeta delta [app].

Section TrialData.

Context {W : Type} `{OS W}.

(** [new_trial_data] step by step: the clock, the date 90 days later,
    the two timestamps, the UUID. *)
Lemma new_trial_data_steps (w : W) :
  new_trial_data w
  = let (w1, ns) := clock_ns w in
    let local := fun u => localtime u w1 in
    let now := datetime_of_clock local ns in
    match datetime_add_days now 90 with
    | inl e => (w1, ([], inl e))
    | inr future_date =>
        match int_times_1000 (datetime_timestamp local now) with
        | inl e => (w1, ([], inl e))
        | inr start_timestamp_ms =>
            match int_times_1000 (datetime_timestamp local future_date) with
            | inl e => (w1, ([], inl e))
            | inr end_timestamp_ms =>
                let (w2, b) := urandom 16 w1 in
                match uuid.UUID_bytes_version4 b with
                | inl e => (w2, ([], inl e))
                | inr u =>
                    (w2, ([], inr {| trialStartTimestamp := start_timestamp_ms;
                                     trialEndTimestamp := end_timestamp_ms;
                                     hasUsedTrial := false;
                                     machineId := uuid.str u |}))
                end
            end
        end
    end.
Proof.
  unfold new_trial_data, datetime_now, timestamp_ms, uuid4, test, mutate,
    lift_py, lift_result.
  cbv beta iota delta [bind ret Monad_M m_bind ok].
  destruct (clock_ns w) as [w1 ns]; step_reduce.
  destruct (datetime_add_days _ 90) as [e|future_date]; step_reduce;
    [reflexivity|].
  destruct (int_times_1000 (datetime_timestamp _ (datetime_of_clock _ ns)))
    as [e|start_ms]; step_reduce; [reflexivity|].
  destruct (int_times_1000 (datetime_timestamp _ future_date))
    as [e|end_ms]; step_reduce; [reflexivity|].
  destruct (urandom 16 w1) as [w2 b]; step_reduce.
  destruct (uuid.UUID_bytes_version4 b) as [e|u]; reflexivity.
Qed.

(** C8 (as amended): in every record [create_new_trial_info] builds,
    [hasUsedTrial] is false, the token is the text of the UUID made of
    sixteen bytes drawn from the random source in that call, and the two
    timestamps are the millisecond timestamps, as integers, of the
    creation reading of the wall clock and of the reading exactly 90 days
    (7,776,000 seconds) later.  The end timestamp is the start timestamp
    plus 7,776,000,000 when the two readings are 7,776,000 seconds apart
    in UTC as well (the offset of the local time from UTC is the same at
    both) and the creation time lies between 2004-11-03 19:53:48 and
    2037-10-21 03:14:06 UTC, where both float products round alike. *)
Theorem C8_trial_data_fields
    (w w' : W) (out : list message) (d : trial_data) :
  new_trial_data w = (w', (out, inr d)) ->
  let w1 := fst (clock_ns w) in
  let local := fun u => localtime u w1 in
  let now := datetime_of_clock local (snd (clock_ns w)) in
  hasUsedTrial d = false /\
  (exists u,
      uuid.UUID_bytes_version4 (snd (urandom 16 w1)) = inr u /\
      machineId d = uuid.str u) /\
  (exists future_date,
      datetime_add_days now 90 = inr future_date /\
      wall future_date = (wall now + 90 * 86400)%Z /\
      microsecond future_date = microsecond now /\
      int_times_1000 (datetime_timestamp local now)
      = inr (trialStartTimestamp d) /\
      int_times_1000 (datetime_timestamp local future_date)
      = inr (trialEndTimestamp d) /\
      (datetime_mktime local future_date
       = (datetime_mktime local now + 7776000)%Z ->
       (1099511628 <= datetime_mktime local now <= 2139707646)%Z ->
       trialEndTimestamp d = (trialStartTimestamp d + 7776000000)%Z)).
Proof.
  intros E w1 local now.
  rewrite new_trial_data_steps in E.
  subst now local w1.
  destruct (clock_ns w) as [w1 ns]; cbn [fst snd] in *.
  set (local := fun u => localtime u w1) in *.
  set (now := datetime_of_clock local ns) in *.
  cbv zeta in E.
  destruct (datetime_add_days now 90) as [e|future_date] eqn:Ad;
    [discriminate E|].
  destruct (int_times_1000 (datetime_timestamp local now))
    as [e|start_ms] eqn:Ts; [discriminate E|].
  destruct (int_times_1000 (datetime_timestamp local future_date))
    as [e|end_ms] eqn:Te; [discriminate E|].
  destruct (urandom 16 w1) as [w2 b]; cbn [snd].
  destruct (uuid.UUID_bytes_version4 b) as [e|u] eqn:Uu; [discriminate E|].
  inversion E; subst; cbn [hasUsedTrial machineId trialStartTimestamp
                            trialEndTimestamp].
  split; [reflexivity|].
  split; [exists u; split; reflexivity|].
  exists future_date.
  assert (F : wall future_date = (wall now + 90 * 86400)%Z /\
              microsecond future_date = microsecond now).
  { unfold datetime_add_days in Ad.
    destruct (_ && _)%bool; inversion Ad; split; reflexivity. }
  destruct F as [Fw Fu].
  repeat (split; [reflexivity || assumption|]).
  intros Mk Range.
  pose proof (microsecond_of_clock local ns) as Us; fold now in Us.
  destruct (Float64Facts.timestamps_90_days_apart
              (datetime_mktime local now) (microsecond now)
              ltac:(lia) ltac:(lia) Us) as [a [A1 A2]].
  unfold datetime_timestamp in Ts, Te.
  rewrite Mk, Fu in Te.
  rewrite A1 in Ts; rewrite A2 in Te.
  inversion Ts; inversion Te; subst; reflexivity.
Qed.

End TrialData.

(** C8 as the specification states it fails.  In central Europe, a
    record created on 2024-01-15 at 12:00:00.250 ends on 2024-04-14 at
    12:00:00.250 summer time: 90 days less one hour after its start. *)
Lemma C8_end_is_not_start_plus_90_days :
  exists w' out d,
    new_trial_data berlin_world = (w', (out, inr d)) /\
    trialStartTimestamp d = 1705316400250%Z /\
    trialEndTimestamp d = 1713088800250%Z /\
    trialEndTimestamp d <> (trialStartTimestamp d + 7776000000)%Z.
Proof.
  do 3 eexists. split; [vm_compute; reflexivity|].
  cbn [trialStartTimestamp trialEndTimestamp].
  repeat split; discriminate.
Qed.

(** On UTC as well, by the rounding of the float products: a record
    created on 2037-11-21 at 13:49:14.970 ends one millisecond short of
    90 days. *)
Example trial_data_2037_one_millisecond_short :
  exists w' out d,
    new_trial_data utc_world_2037 = (w', (out, inr d)) /\
    trialStartTimestamp d = 2142424154970%Z /\
    trialEndTimestamp d = 2150200154969%Z.
Proof.
  do 3 eexists. split; [vm_compute; reflexivity|].
  split; reflexivity.
Qed.

(** On the sample world (UTC, 2023-11-14 22:13:20.123456) the window is
    90 days to the millisecond. *)
Lemma C8_trial_data_fields_witness :
  let r := new_trial_data sample_world in
  let d := {| trialStartTimestamp := 1700000000123;
              trialEndTimestamp := 1707776000123;
              hasUsedTrial := false;
              machineId := "01020304-0506-4708-890a-0b0c0d0e0f10" |} in
  r = (fst r, (fst (snd r), inr d)) /\
  hasUsedTrial d = false /\
  trialEndTimestamp d = (trialStartTimestamp d + 7776000000)%Z.
Proof.
  intros r d.
  assert (E : r = (fst r, (fst (snd r), inr d))) by (vm_compute; reflexivity).
  split; [exact E|].
  destruct (C8_trial_data_fields (W := MemOS.world) sample_world _ _ d E)
    as [Hu [_ [future_date [Ad [_ [_ [_ [_ X]]]]]]]].
  split; [exact Hu|].
  vm_compute in Ad; injection Ad as <-.
  apply X.
  - vm_compute; reflexivity.
  - split; vm_compute; intro; discriminate.
Defined.

(* ------------------------------------------------------------------ *)
(** * More on the safety gate *)
(* ------------------------------------------------------------------ *)

(** The three ways out of the gate. *)
Lemma gate_cases (p home : Path) (bases : list string) :
  is_safe_to_delete p home bases = ([], inr true) \/
  is_safe_to_delete p home bases
  = ([Skipping_unsafe_outside_home p], inr false) \/
  is_safe_to_delete p home bases
  = ([Skipping_unexpected_location p], inr false).
Proof.
  destruct (is_relative_to p home) eqn:R.
  - destruct (is_relative_to_true _ _ R) as [r E].
    rewrite (gate_inside _ _ _ _ E).
    destruct (_ || _); auto.
  - rewrite (gate_outside _ _ _ R); auto.
Qed.

(** X1: [is_safe_to_delete] never raises and never reaches its [except]
    clauses: it returns [True] and prints nothing, or returns [False]
    after exactly one of its two warnings. *)
Theorem gate_three_results (p home : Path) (bases : list string) :
  is_safe_to_delete p home bases = ([], inr true) \/
  is_safe_to_delete p home bases
  = ([Skipping_unsafe_outside_home p], inr false) \/
  is_safe_to_delete p home bases
  = ([Skipping_unexpected_location p], inr false).
Proof. exact (gate_cases p home bases). Qed.

Lemma parent_is_dot (r : Path) :
  root r = "" ->
  eqb (parent r) (Path_ ".") = true <-> List.length (tail r) <= 1.
Proof.
  destruct r as [rr t]; simpl; intros ->.
  destruct t as [|x [|y t]]; unfold parent; simpl.
  - split; [lia | reflexivity].
  - split; [lia | reflexivity].
  - split; [|lia].
    unfold eqb; simpl. destruct t; simpl; discriminate.
Qed.

(** X2: for a well-formed home directory, [is_safe_to_delete] returns
    [True] exactly for the candidates whose components continue those of
    the home directory and whose remaining path either starts, as a
    string, with an allowed base or has at most one component. *)
Theorem gate_true_iff (p home : Path) (bases : list string) :
  wf home = true ->
  verdict (is_safe_to_delete p home bases) = true <->
  exists r,
    relative_to p home = inr r /\
    (existsb (fun base => startswith (str r) base) bases = true \/
     List.length (tail r) <= 1).
Proof.
  intros WF; split.
  - intros V.
    destruct (is_relative_to p home) eqn:R.
    + destruct (is_relative_to_true _ _ R) as [r E].
      exists r; split; [exact E|].
      rewrite (gate_inside _ _ _ _ E) in V.
      destruct (existsb _ bases); [left; reflexivity|].
      right. apply parent_is_dot; [exact (relative_to_root _ _ _ WF E)|].
      destruct (eqb (parent r) (Path_ ".")); [reflexivity | discriminate V].
    + rewrite (gate_outside _ _ _ R) in V; discriminate V.
  - intros [r [E C]].
    rewrite (gate_inside _ _ _ _ E).
    destruct C as [C|C].
    + rewrite C; reflexivity.
    + apply (parent_is_dot r (relative_to_root _ _ _ WF E)) in C.
      rewrite C, orb_true_r; reflexivity.
Qed.

Lemma gate_true_iff_witness :
  wf home_u = true /\
  (verdict (is_safe_to_delete (home_u // "Documents" // "thesis.tex") home_u
              (EXPECTED_BASES Linux)) = true <->
   exists r,
     relative_to (home_u // "Documents" // "thesis.tex") home_u = inr r /\
     (existsb (fun base => startswith (str r) base) (EXPECTED_BASES Linux)
      = true \/ List.length (tail r) <= 1)).
Proof.
  split; [reflexivity|].
  apply (gate_true_iff _ home_u); reflexivity.
Defined.

Lemma prefix_append (b a s : string) :
  String.prefix b a = true -> String.prefix b (a ++ s) = true.
Proof.
  revert b; induction a as [|c a IH]; intros [|d b]; simpl; intros P;
    try discriminate; try reflexivity.
  - destruct s; reflexivity.
  - destruct (ascii_dec d c); [apply IH; exact P | discriminate].
Qed.

Lemma append_nil_r (x : string) : x ++ "" = x.
Proof. induction x; simpl; congruence. Qed.

Lemma concat_cons_cons (x y : string) (l : list string) :
  String.concat "/" (x :: y :: l) = x ++ "/" ++ String.concat "/" (y :: l).
Proof. reflexivity. Qed.

(** The string of a longer relative path starts with the string of the
    shorter one. *)
Lemma concat_app_cons (x : string) (m more : list string) :
  exists s, String.concat "/" (x :: m ++ more)
            = String.concat "/" (x :: m) ++ s.
Proof.
  revert x; induction m as [|y m IH]; intros x.
  - destruct more as [|z more].
    + exists ""; symmetry; apply append_nil_r.
    + eexists; apply concat_cons_cons.
  - destruct (IH y) as [s S]. exists s.
    change ((y :: m) ++ more)%list with (y :: m ++ more)%list.
    rewrite !concat_cons_cons, S, !append_assoc. reflexivity.
Qed.

Lemma str_relative (x : string) (l : list string) :
  x <> "" -> str (mkPath "" (x :: l)) = String.concat "/" (x :: l).
Proof.
  intros N; unfold str; cbn [root tail].
  change ("" ++ String.concat "/" (x :: l)) with (String.concat "/" (x :: l)).
  destruct x as [|c x]; [contradiction|].
  destruct l; reflexivity.
Qed.

(** X3: what an allowed base admits, it admits with everything below:
    when the path of a candidate relative to the home directory starts
    with an allowed base, every path below the candidate is judged safe
    as well. *)
Theorem gate_allows_descendants
    (home : Path) (bases : list string) (base x : string)
    (m more : list string) :
  x <> "" ->
  In base bases ->
  startswith (str (mkPath "" (x :: m))) base = true ->
  is_safe_to_delete (mkPath (root home) (tail home ++ (x :: m) ++ more))
    home bases = ([], inr true).
Proof.
  intros N I S.
  rewrite (gate_inside _ _ _ _ (relative_to_extension home ((x :: m) ++ more))).
  assert (X : existsb
                (fun b => startswith (str (mkPath "" ((x :: m) ++ more))) b)
                bases = true).
  { apply existsb_exists; exists base; split; [exact I|].
    change ((x :: m) ++ more)%list with (x :: m ++ more)%list.
    rewrite str_relative in * by exact N.
    destruct (concat_app_cons x m more) as [s ->].
    apply prefix_append; exact S. }
  rewrite X; reflexivity.
Qed.

Lemma gate_allows_descendants_witness :
  ".config" <> "" /\
  In ".config" (EXPECTED_BASES Linux) /\
  startswith (str (mkPath "" [".config"; "Cursor"])) ".config" = true /\
  is_safe_to_delete (home_u // ".config/Cursor/User/state.vscdb") home_u
    (EXPECTED_BASES Linux) = ([], inr true).
Proof.
  split; [discriminate|]. split; [simpl; auto|]. split; [reflexivity|].
  apply (gate_allows_descendants home_u (EXPECTED_BASES Linux) ".config"
           ".config" ["Cursor"] ["User"; "state.vscdb"]).
  - discriminate.
  - simpl; auto.
  - reflexivity.
Defined.

(* ------------------------------------------------------------------ *)
(** * More on the guarded remover *)
(* ------------------------------------------------------------------ *)

Section RemoverMore.

Context {W : Type} `{OS W}.

(** How a call of [remove_path] ends, by the answer of its existence
    test. *)
Lemma remove_path_cases (p home : Path) (bases : list string) (w : W) :
  (exists_ p w = inr false /\
   remove_path p home bases w = (w, ([], inr tt))) \/
  (exists e, exists_ p w = inl e /\
             remove_path p home bases w = (w, ([], inl e))) \/
  (exists_ p w = inr true /\
   exists w' m o,
     remove_path p home bases w = (w', ([m], inr tt)) /\
     outcome_of [m] = Some o /\ o <> skipped_absent).
Proof.
  destruct (exists_ p w) as [e|[|]] eqn:E.
  - right; left; exists e; split;
      [reflexivity | exact (remove_path_existence_error _ _ _ _ _ E)].
  - right; right; split; [reflexivity|].
    destruct (gate_cases p home bases) as [G|[G|G]].
    + rewrite (remove_path_safe _ _ _ _ E G).
      destruct (type_dispatch_output p w) as [w' [o [r [T O]]]].
      destruct r as [e|[]].
      * subst o. rewrite (try_type_dispatch_raises _ _ _ _ _ T).
        exists w', (report p e), (failed (classify e)).
        split; [reflexivity|].
        split; [apply outcome_of_report | discriminate].
      * rewrite (try_type_dispatch_returns _ _ _ _ _ T).
        destruct O as [-> | [-> | ->]]; do 3 eexists;
          (split; [reflexivity|]); (split; [reflexivity | discriminate]).
    + rewrite (remove_path_unsafe _ _ _ _ _ E G).
      do 3 eexists; split; [reflexivity|].
      split; [reflexivity | discriminate].
    + rewrite (remove_path_unsafe _ _ _ _ _ E G).
      do 3 eexists; split; [reflexivity|].
      split; [reflexivity | discriminate].
  - left; split; [reflexivity | exact (remove_path_absent _ _ _ _ E)].
Qed.

(** X4: [remove_path] ends in one of three ways, decided by its
    existence test.  It returns without a word exactly when the test
    says the candidate is absent.  It raises exactly when the test
    raises, and then raises that exception, with nothing printed and
    nothing changed.  When the test says the candidate exists it does
    not raise and prints exactly one line, which tells the outcome. *)
Theorem remove_path_silent_iff_absent
    (p home : Path) (bases : list string) (w : W) :
  (snd (remove_path p home bases w) = ([], inr tt)
   <-> exists_ p w = inr false) /\
  (forall e,
      snd (snd (remove_path p home bases w)) = inl e
      <-> exists_ p w = inl e) /\
  (forall e,
      exists_ p w = inl e ->
      remove_path p home bases w = (w, ([], inl e))) /\
  (exists_ p w = inr true <->
   exists w' m o,
     remove_path p home bases w = (w', ([m], inr tt)) /\
     outcome_of [m] = Some o /\ o <> skipped_absent).
Proof.
  destruct (remove_path_cases p home bases w)
    as [[E R] | [[e [E R]] | [E [w' [m [o [R O]]]]]]]; rewrite R, E;
    cbn [fst snd].
  - repeat split; try intros; try congruence.
    match goal with
    | X : exists _, _ |- _ => destruct X as [w1 [m [o [X _]]]]; discriminate X
    end.
  - repeat split; try intros; try congruence.
    match goal with
    | X : exists _, _ |- _ => destruct X as [w1 [m [o [X _]]]]; discriminate X
    end.
  - repeat split; try intros; try congruence.
    exists w', m, o; split; [reflexivity | exact O].
Qed.

(** X5: how [remove_path] deletes an existing candidate that passed the
    gate.  A regular file and a symbolic link are unlinked: a link is
    never followed into the directory it points to, because the link test
    comes before the directory test.  A directory that is no link is
    removed as a tree.  Anything else is left as it is and reported. *)
Theorem remove_path_dispatch (p home : Path) (bases : list string) (w : W) :
  exists_ p w = inr true ->
  is_safe_to_delete p home bases = ([], inr true) ->
  (is_file p w = inr true \/
   (is_file p w = inr false /\ is_symlink p w = inr true) ->
   remove_path p home bases w
   = mutation_report (Deleted_file p) p (unlink p w)) /\
  (is_file p w = inr false -> is_symlink p w = inr false ->
   is_dir p w = inr true ->
   remove_path p home bases w
   = mutation_report (Deleted_directory p) p (rmtree p w)) /\
  (is_file p w = inr false -> is_symlink p w = inr false ->
   is_dir p w = inr false ->
   remove_path p home bases w = (w, ([Skipping_non_file_dir p], inr tt))).
Proof.
  intros E G.
  rewrite (remove_path_safe _ _ _ _ E G).
  assert (R : forall (e : exn) (w1 : W),
             match find_handler e (deletion_handlers p) with
             | Some h =>
                 match h e w1 with
                 | (w'', (out', r)) => (w'', (([] ++ out')%list, r))
                 end
             | None => (w1, ([], inl e))
             end = (w1, ([report p e], inr tt))).
  { intros e w1. destruct (find_deletion_handler (W := W) p e) as [h [F Hh]].
    rewrite F, Hh; reflexivity. }
  unfold m_try_except, type_dispatch, test, mutate, lift_py, print,
    mutation_report.
  cbv beta iota delta [bind ret Monad_M m_bind].
  repeat split.
  - intros [F | [F L]].
    + rewrite F; cbv beta iota zeta.
      destruct (unlink p w) as [w1 [e|[]]]; cbv beta iota zeta;
        [apply R | reflexivity].
    + rewrite F; cbv beta iota zeta. rewrite L; cbv beta iota zeta.
      destruct (unlink p w) as [w1 [e|[]]]; cbv beta iota zeta;
        [apply R | reflexivity].
  - intros F L D.
    rewrite F; cbv beta iota zeta. rewrite L; cbv beta iota zeta.
    rewrite D; cbv beta iota zeta.
    destruct (rmtree p w) as [w1 [e|[]]]; cbv beta iota zeta;
      [apply R | reflexivity].
  - intros F L D.
    rewrite F; cbv beta iota zeta. rewrite L; cbv beta iota zeta.
    rewrite D; cbv beta iota zeta. reflexivity.
Qed.

(** X15: an exception raised inside the [try] of [remove_path], by a
    test of the type of the candidate or by the deletion itself, is
    caught there and reported as one of four failures, told apart by
    the class of the exception: already gone, permission denied, other
    OS error with its reason, unexpected error with its reason. *)
Theorem deletion_errors_are_caught_and_classified
    (home : Path) (bases : list string) :
  (forall p w w' out e,
      exists_ p w = inr true ->
      is_safe_to_delete p home bases = ([], inr true) ->
      type_dispatch p w = (w', (out, inl e)) ->
      remove_path p home bases w = (w', ([report p e], inr tt)) /\
      outcome_of [report p e] = Some (failed (classify e))) /\
  (forall e,
      (exn_type e = FileNotFoundError -> classify e = already_gone) /\
      (exn_type e = PermissionError -> classify e = permission_denied) /\
      (isinstance e OSError = true ->
       exn_type e <> FileNotFoundError -> exn_type e <> PermissionError ->
       classify e = os_failure e) /\
      (isinstance e OSError = false -> classify e = unexpected e)).
Proof.
  split.
  - intros p w w' out e E G T.
    rewrite (remove_path_safe _ _ _ _ E G).
    rewrite (try_type_dispatch_raises _ _ _ _ _ T).
    destruct (type_dispatch_output p w) as [w1 [o1 [r1 [T1 O1]]]].
    rewrite T in T1; inversion T1; subst; simpl in O1; subst o1.
    split; [reflexivity | apply outcome_of_report].
  - intros e; apply classify_cases.
Qed.

End RemoverMore.

(** With [~/.config] closed to searching, the existence test of a
    candidate below it raises, and so does [remove_path]. *)
Lemma remove_path_silent_iff_absent_witness :
  let p := home_u // ".config/Cursor" in
  let e := mkExn PermissionError "Permission denied" in
  exists_ p locked_world = inl e /\
  remove_path p home_u (EXPECTED_BASES Linux) locked_world
  = (locked_world, ([], inl e)).
Proof.
  intros p e.
  assert (X : exists_ p locked_world = inl e) by (vm_compute; reflexivity).
  split; [exact X|].
  destruct (remove_path_silent_iff_absent (W := LockedOS.world) p home_u
              (EXPECTED_BASES Linux) locked_world) as [_ [_ [R _]]].
  exact (R e X).
Defined.

(** The protected cache directory of the sample world: [rmtree] is
    refused, and the refusal is reported. *)
Lemma deletion_errors_are_caught_and_classified_witness :
  let p := home_u // ".cache/Cursor" in
  let e := mkExn PermissionError "Permission denied" in
  exists_ p sample_world = inr true /\
  is_safe_to_delete p home_u (EXPECTED_BASES Linux) = ([], inr true) /\
  type_dispatch p sample_world = (sample_world, ([], inl e)) /\
  remove_path p home_u (EXPECTED_BASES Linux) sample_world
  = (sample_world, ([Permission_denied_deleting p], inr tt)).
Proof.
  intros p e.
  split; [reflexivity|]. split; [reflexivity|]. split; [reflexivity|].
  destruct (deletion_errors_are_caught_and_classified
              (W := MemOS.world) home_u (EXPECTED_BASES Linux)) as [C _].
  apply (C p sample_world sample_world [] e); reflexivity.
Defined.

Lemma remove_path_dispatch_witness :
  let p := home_u // ".config/Cursor" in
  let run := remove_path p home_u (EXPECTED_BASES Linux) links_world in
  exists_ p links_world = inr true /\
  is_file p links_world = inr false /\
  is_symlink p links_world = inr true /\
  is_dir p links_world = inr true /\
  run = mutation_report (Deleted_file p) p (unlink p links_world) /\
  exists_ p (fst run) = inr false /\
  exists_ (home_u // "dotfiles/settings.json") (fst run) = inr true.
Proof.
  intros p run.
  split; [reflexivity|]. split; [reflexivity|]. split; [reflexivity|].
  split; [reflexivity|]. split.
  - assert (Ex : exists_ p links_world = inr true) by reflexivity.
    assert (G : is_safe_to_delete p home_u (EXPECTED_BASES Linux)
                = ([], inr true)) by reflexivity.
    destruct (remove_path_dispatch (W := MemOS.world) p home_u
                (EXPECTED_BASES Linux) links_world Ex G) as [U _].
    apply U. right; split; reflexivity.
  - split; vm_compute; reflexivity.
Defined.

(** A socket among the candidates is reported and left where it is. *)
Example remove_path_special_file :
  remove_path (home_u // ".cache/Cursor") home_u (EXPECTED_BASES Linux)
    links_world
  = (links_world, ([Skipping_non_file_dir (home_u // ".cache/Cursor")], inr tt)).
Proof. vm_compute; reflexivity. Qed.

Section Idempotence.

Context {W : Type} `{DeletionLaws W}.

Lemma type_dispatch_deleted (p : Path) (w w' : W) (out : list message)
    (r : result unit) :
  type_dispatch p w = (w', (out, r)) ->
  (out = [Deleted_file p] -> unlink p w = (w', inr tt)) /\
  (out = [Deleted_directory p] -> rmtree p w = (w', inr tt)).
Proof.
  unfold type_dispatch, test, mutate, lift_py, print.
  cbv beta iota delta [bind ret Monad_M m_bind].
  destruct (is_file p w) as [e|[|]]; cbv beta iota zeta.
  - intros E; inversion E; subst; split; discriminate.
  - destruct (unlink p w) as [w1 [e|[]]]; cbv beta iota zeta;
      intros E; inversion E; subst; split; try discriminate; reflexivity.
  - destruct (is_symlink p w) as [e|[|]]; cbv beta iota zeta.
    + intros E; inversion E; subst; split; discriminate.
    + destruct (unlink p w) as [w1 [e|[]]]; cbv beta iota zeta;
        intros E; inversion E; subst; split; try discriminate; reflexivity.
    + destruct (is_dir p w) as [e|[|]]; cbv beta iota zeta.
      * intros E; inversion E; subst; split; discriminate.
      * destruct (rmtree p w) as [w1 [e|[]]]; cbv beta iota zeta;
          intros E; inversion E; subst; split; try discriminate; reflexivity.
      * intros E; inversion E; subst; split; discriminate.
Qed.

(** X6: [remove_path] is idempotent.  After a run that reported a
    deletion, the candidate does not exist, and a second run on it
    changes nothing and prints nothing. *)
Theorem remove_path_twice
    (p home : Path) (bases : list string) (w w' : W) (out : list message)
    (r : result unit) :
  tail p <> [] ->
  remove_path p home bases w = (w', (out, r)) ->
  outcome_of out = Some deleted ->
  exists_ p w' = inr false /\
  remove_path p home bases w' = (w', ([], inr tt)).
Proof.
  intros NT E O.
  assert (X : exists_ p w' = inr false).
  { destruct (exists_ p w) as [e0|[|]] eqn:Ex.
    - rewrite (remove_path_existence_error _ _ _ _ _ Ex) in E.
      inversion E; subst; discriminate O.
    - destruct (gate_cases p home bases) as [G|[G|G]].
      + rewrite (remove_path_safe _ _ _ _ Ex G) in E.
        destruct (type_dispatch p w) as [w1 [o1 r1]] eqn:T.
        destruct (type_dispatch_output p w) as [w2 [o2 [r2 [T2 O2]]]].
        rewrite T in T2; inversion T2; subst w2 o2 r2.
        destruct (type_dispatch_deleted _ _ _ _ _ T) as [Du Dr].
        destruct r1 as [e|[]].
        * subst o1. rewrite (try_type_dispatch_raises _ _ _ _ _ T) in E.
          inversion E; subst. rewrite outcome_of_report in O; discriminate O.
        * rewrite (try_type_dispatch_returns _ _ _ _ _ T) in E.
          inversion E; subst.
          destruct O2 as [-> | [-> | ->]].
          -- apply (unlink_removes p w w'), Du; reflexivity.
          -- apply (rmtree_removes p w w' NT), Dr; reflexivity.
          -- discriminate O.
      + rewrite (remove_path_unsafe _ _ _ _ _ Ex G) in E.
        inversion E; subst; discriminate O.
      + rewrite (remove_path_unsafe _ _ _ _ _ Ex G) in E.
        inversion E; subst; discriminate O.
    - rewrite (remove_path_absent _ _ _ _ Ex) in E.
      inversion E; subst; discriminate O. }
  split; [exact X | exact (remove_path_absent _ _ _ _ X)].
Qed.

End Idempotence.

Module MemOSDeletion.
Import MemOS.

Lemma lookup_filter_none {A} (p : Path) (f : Path * A -> bool)
    (l : list (Path * A)) :
  (forall a, f (p, a) = false) -> lookup p (filter f l) = None.
Proof.
  intros F; induction l as [|[q a] l IH]; simpl; [reflexivity|].
  destruct (f (q, a)) eqn:Fq; [|exact IH].
  simpl. destruct (eqb q p) eqn:E; [|exact IH].
  apply path_eqb_eq in E; subst q. rewrite F in Fq; discriminate.
Qed.

Lemma mem_exists_gone (p : Path) (w : world) (l : list (Path * node)) :
  tail p <> [] -> lookup p l = None ->
  mem_exists p (with_nodes w l) = inr false.
Proof.
  intros NT L; unfold mem_exists, resolve, node_at; simpl.
  destruct (tail p); [contradiction|]. rewrite L; reflexivity.
Qed.

Lemma mem_unlink_removes (p : Path) (w w' : world) :
  mem_unlink p w = (w', inr tt) -> mem_exists p w' = inr false.
Proof.
  unfold mem_unlink.
  destruct (lookup p (faults w)); [discriminate|].
  destruct (tail p) as [|x t] eqn:T.
  - unfold node_at; rewrite T; discriminate.
  - assert (NT : tail p <> []) by (rewrite T; discriminate).
    destruct (node_at p w) as [[]|]; try discriminate;
      intros E; inversion E; subst;
      (apply mem_exists_gone; [exact NT|]);
      apply lookup_filter_none; intros a; simpl;
      rewrite path_eqb_refl; reflexivity.
Qed.

Lemma mem_rmtree_removes (p : Path) (w w' : world) :
  tail p <> [] -> mem_rmtree p w = (w', inr tt) ->
  mem_exists p w' = inr false.
Proof.
  intros NT; unfold mem_rmtree.
  destruct (lookup p (faults w)); [discriminate|].
  destruct (node_at p w) as [[]|]; try discriminate.
  intros E; inversion E; subst.
  apply mem_exists_gone; [exact NT|].
  apply lookup_filter_none; intros a; simpl.
  rewrite (is_relative_to_inr _ _ _ (relative_to_self p)); reflexivity.
Qed.

#[global] Instance MemOS_DeletionLaws : DeletionLaws world := {
  unlink_removes := mem_unlink_removes;
  rmtree_removes := mem_rmtree_removes
}.

End MemOSDeletion.

Lemma remove_path_twice_witness :
  let p := home_u // ".config/Cursor" in
  let run := remove_path p home_u (EXPECTED_BASES Linux) sample_world in
  tail p <> [] /\
  outcome_of (fst (snd run)) = Some deleted /\
  exists_ p (fst run) = inr false /\
  remove_path p home_u (EXPECTED_BASES Linux) (fst run)
  = (fst run, ([], inr tt)).
Proof.
  intros p run.
  split; [discriminate|]. split; [vm_compute; reflexivity|].
  apply (remove_path_twice (W := MemOS.world) p home_u (EXPECTED_BASES Linux)
           sample_world (fst run) (fst (snd run)) (snd (snd run))).
  - discriminate.
  - vm_compute; reflexivity.
  - vm_compute; reflexivity.
Defined.

(* ------------------------------------------------------------------ *)
(** * The tables and the whole run *)
(* ------------------------------------------------------------------ *)

Section Sweep.

Context {W : Type} `{OS W}.

(** A sweep of [remove_path] raises only what the existence test of one
    of its candidates raised, and ends in the world of that test. *)
Lemma sweep_raises_from_exists (home : Path) (bases : list string)
    (l : list Path) (w w' : W) (o : list message) (e : exn) :
  for_each l (fun p => remove_path p home bases) w = (w', (o, inl e)) ->
  exists p, In p l /\ exists_ p w' = inl e.
Proof.
  revert w o; induction l as [|x l IH]; intros w o E; simpl in E.
  - discriminate E.
  - unfold m_bind in E.
    destruct (remove_path_cases x home bases w)
      as [[_ R] | [[e0 [X R]] | [_ [w1 [m [o1 [R _]]]]]]];
      rewrite R in E.
    + destruct (for_each l _ w) as [w2 [o2 r2]] eqn:F.
      inversion E; subst.
      destruct (IH _ _ F) as [p [I P]]. exists p; split; [right; exact I | exact P].
    + inversion E; subst. exists x; split; [left; reflexivity | exact X].
    + destruct (for_each l _ w1) as [w2 [o2 r2]] eqn:F.
      inversion E; subst.
      destruct (IH _ _ F) as [p [I P]]. exists p; split; [right; exact I | exact P].
Qed.

(** X7: the deletion phase is one sweep in the order of the tables: the
    configuration directories, then the cache directories, then the
    state files, each candidate handled in the world its predecessors
    left, with a header printed before each of the three groups.  The
    sweep ends early only when the existence test of a candidate
    raises: then the phase raises that exception in the world of that
    test, and the candidates after it are not handled. *)
Theorem deletion_phase_is_one_sweep (home : Path) (paths : os_paths) (w : W) :
  let rp := fun p => remove_path p home (allowed_bases paths) in
  let all :=
    (config_dirs paths ++ cache_dirs paths ++ state_files paths)%list in
  let h1 := Line "--- Removing Configuration Directories ---" in
  let h2 := Line "--- Removing Cache Directories ---" in
  let h3 := Line "--- Removing State & Other Files ---" in
  let '(w1, (o1, r1)) := for_each (config_dirs paths) rp w in
  match r1 with
  | inl e =>
      deletion_phase home paths w = (w1, (h1 :: o1, inl e)) /\
      for_each all rp w = (w1, (o1, inl e)) /\
      exists p, In p (config_dirs paths) /\ exists_ p w1 = inl e
  | inr _ =>
      let '(w2, (o2, r2)) := for_each (cache_dirs paths) rp w1 in
      match r2 with
      | inl e =>
          deletion_phase home paths w
          = (w2, ((h1 :: o1 ++ h2 :: o2)%list, inl e)) /\
          for_each all rp w = (w2, ((o1 ++ o2)%list, inl e)) /\
          exists p, In p (cache_dirs paths) /\ exists_ p w2 = inl e
      | inr _ =>
          let '(w3, (o3, r3)) := for_each (state_files paths) rp w2 in
          deletion_phase home paths w
          = (w3, ((h1 :: o1 ++ h2 :: o2 ++ h3 :: o3)%list, r3)) /\
          for_each all rp w = (w3, ((o1 ++ o2 ++ o3)%list, r3)) /\
          match r3 with
          | inl e => exists p, In p (state_files paths) /\ exists_ p w3 = inl e
          | inr _ => True
          end
      end
  end.
Proof.
  intros rp all h1 h2 h3. subst all.
  rewrite (for_each_app rp _ _ w).
  unfold deletion_phase, lift_py, print.
  cbv beta iota delta [bind ret Monad_M m_bind]. fold rp.
  destruct (for_each (config_dirs paths) rp w) as [w1 [o1 [e|[]]]] eqn:E1;
    cbv beta iota zeta.
  - split; [reflexivity|]. split; [reflexivity|].
    exact (sweep_raises_from_exists _ _ _ _ _ _ _ E1).
  - rewrite (for_each_app rp _ _ w1).
    destruct (for_each (cache_dirs paths) rp w1) as [w2 [o2 [e|[]]]] eqn:E2;
      cbv beta iota zeta.
    + split; [simpl app; rewrite <- ?app_assoc; reflexivity|].
      split; [reflexivity|].
      exact (sweep_raises_from_exists _ _ _ _ _ _ _ E2).
    + destruct (for_each (state_files paths) rp w2) as [w3 [o3 r3]] eqn:E3;
        cbv beta iota zeta.
      split; [simpl app; rewrite <- ?app_assoc; reflexivity|].
      split; [reflexivity|].
      destruct r3 as [e|]; [|exact I].
      exact (sweep_raises_from_exists _ _ _ _ _ _ _ E3).
Qed.

End Sweep.

(** With [~/.config] closed to searching the phase stops in the first
    group, at its first candidate. *)
Lemma deletion_phase_is_one_sweep_witness :
  let e := mkExn PermissionError "Permission denied" in
  deletion_phase home_u (linux_paths home_u) locked_world
  = (locked_world,
     ([Line "--- Removing Configuration Directories ---"], inl e)) /\
  exists p, In p (config_dirs (linux_paths home_u)) /\
            exists_ p locked_world = inl e.
Proof.
  intros e.
  pose proof (deletion_phase_is_one_sweep (W := LockedOS.world) home_u
                (linux_paths home_u) locked_world) as S.
  cbv zeta in S.
  assert (E1 : for_each (config_dirs (linux_paths home_u))
                 (fun p => remove_path p home_u
                             (allowed_bases (linux_paths home_u)))
                 locked_world
               = (locked_world, ([], inl e))) by (vm_compute; reflexivity).
  rewrite E1 in S. destruct S as [S1 [_ S3]].
  split; [exact S1 | exact S3].
Defined.

Lemma gate_extension (home : Path) (m bases : list string) :
  existsb (fun b => startswith (str (mkPath "" m)) b) bases
  || eqb (parent (mkPath "" m)) (Path_ ".") = true ->
  is_safe_to_delete (mkPath (root home) (tail home ++ m)) home bases
  = ([], inr true).
Proof.
  intros B.
  rewrite (gate_inside _ _ _ _ (relative_to_extension home m)), B.
  reflexivity.
Qed.

Lemma parent_snoc (r : string) (l : list string) (a : string) :
  parent (mkPath r (l ++ [a])) = mkPath r l.
Proof.
  unfold parent; cbn [tail root].
  destruct (l ++ [a])%list eqn:E.
  - destruct l; discriminate E.
  - rewrite <- E, removelast_last; reflexivity.
Qed.

(** The candidates of a table, written as the components they add to
    the home directory. *)
Ltac normalise_joins :=
  unfold joinpath; cbn [Path_ root tail]; simpl;
  repeat rewrite <- app_assoc; simpl.

Ltac gate_ok := apply gate_extension; reflexivity.

(** X8: on Linux and on macOS the tables agree with the gate: every
    candidate [get_os_paths] lists for deletion is judged safe under the
    allowed bases of its system, whatever the home directory. *)
Theorem tables_pass_the_gate (home : Path) :
  (exists paths,
      get_os_paths "Linux" home = ([], inr (Some paths)) /\
      Forall (fun p => is_safe_to_delete p home (allowed_bases paths)
                       = ([], inr true))
        (config_dirs paths ++ cache_dirs paths ++ state_files paths)) /\
  (exists paths,
      get_os_paths "Darwin" home = ([], inr (Some paths)) /\
      Forall (fun p => is_safe_to_delete p home (allowed_bases paths)
                       = ([], inr true))
        (config_dirs paths ++ cache_dirs paths ++ state_files paths)).
Proof.
  split.
  - exists (linux_paths home); split; [reflexivity|].
    unfold linux_paths; cbn [config_dirs cache_dirs state_files allowed_bases app].
    normalise_joins.
    repeat (apply Forall_cons; [gate_ok|]). apply Forall_nil.
  - exists (darwin_paths home); split; [reflexivity|].
    unfold darwin_paths; cbn [config_dirs cache_dirs state_files allowed_bases app].
    normalise_joins.
    repeat (apply Forall_cons; [gate_ok|]). apply Forall_nil.
Qed.

Lemma parent_app (r : string) (t m : list string) :
  m <> [] -> parent (mkPath r (t ++ m)) = mkPath r (t ++ removelast m).
Proof.
  intros N; unfold parent; cbn [tail root].
  destruct (t ++ m)%list eqn:E.
  - destruct t; [simpl in E; contradiction | discriminate E].
  - rewrite <- E, removelast_app by exact N; reflexivity.
Qed.

Section Creation.

Context {W : Type} `{OS W}.

Lemma parent_in_config_is_reasonable (path : Path) (paths : os_paths) (w : W) :
  existsb (fun p => eqb p (parent path)) (config_dirs paths) = true ->
  parent_is_reasonable path paths w
  = (w, ([], match exists_ (parent path) w with
             | inl e => inl e
             | inr _ => inr true
             end)).
Proof.
  intros E; unfold parent_is_reasonable, test.
  cbv beta iota delta [bind ret Monad_M m_bind ok].
  destruct (exists_ (parent path) w) as [e|[|]]; cbv beta iota zeta;
    rewrite ?E; reflexivity.
Qed.

(** X9: the files the run recreates always lie directly in one of the
    configuration directories it deletes, on each of the three systems:
    the test of lines 323 and 332 never answers no.  It answers yes
    whether or not the directory still exists, so the creation of the
    machine id and of the trial record is never skipped; or its
    existence test raises, and the test raises that exception, in the
    world it was given. *)
Theorem creation_is_never_skipped
    (system : string) (home : Path) (out : list message) (paths : os_paths)
    (w : W) :
  get_os_paths system home = (out, inr (Some paths)) ->
  (forall path, In path (machine_id_files paths) ->
                parent_is_reasonable path paths w
                = (w, ([], match exists_ (parent path) w with
                           | inl e => inl e
                           | inr _ => inr true
                           end))) /\
  (exists path, trial_file paths = Some path /\
                parent_is_reasonable path paths w
                = (w, ([], match exists_ (parent path) w with
                           | inl e => inl e
                           | inr _ => inr true
                           end))).
Proof.
  unfold get_os_paths.
  destruct (system =? "Windows");
    [|destruct (system =? "Darwin"); [|destruct (system =? "Linux")]];
    intros E; simpl in E; inversion E; subst; clear E.
  - split.
    + intros path [<-|[]]; apply parent_in_config_is_reasonable.
      unfold windows_paths; cbn [config_dirs]; normalise_joins.
      rewrite parent_app by discriminate; simpl.
      rewrite path_eqb_refl; reflexivity.
    + eexists; split; [reflexivity|]. apply parent_in_config_is_reasonable.
      unfold windows_paths; cbn [config_dirs]; normalise_joins.
      rewrite parent_app by discriminate; simpl.
      rewrite path_eqb_refl; reflexivity.
  - split.
    + intros path [<-|[]]; apply parent_in_config_is_reasonable.
      unfold darwin_paths; cbn [config_dirs]; normalise_joins.
      rewrite parent_app by discriminate; simpl.
      rewrite path_eqb_refl; reflexivity.
    + eexists; split; [reflexivity|]. apply parent_in_config_is_reasonable.
      unfold darwin_paths; cbn [config_dirs]; normalise_joins.
      rewrite parent_app by discriminate; simpl.
      rewrite path_eqb_refl; reflexivity.
  - split.
    + intros path [<-|[]]; apply parent_in_config_is_reasonable.
      unfold linux_paths; cbn [config_dirs]; normalise_joins.
      rewrite parent_app by discriminate; simpl.
      rewrite path_eqb_refl; reflexivity.
    + eexists; split; [reflexivity|]. apply parent_in_config_is_reasonable.
      unfold linux_paths; cbn [config_dirs]; normalise_joins.
      rewrite parent_app by discriminate; simpl.
      rewrite path_eqb_refl; reflexivity.
Qed.

End Creation.

Lemma creation_is_never_skipped_witness :
  let paths := linux_paths home_u in
  let w := fst (deletion_phase home_u paths sample_world) in
  get_os_paths "Linux" home_u = ([], inr (Some paths)) /\
  exists_ (home_u // ".config/Cursor") w = inr false /\
  parent_is_reasonable (home_u // ".config/Cursor/machineid") paths w
  = (w, ([], inr true)).
Proof.
  intros paths w.
  split; [reflexivity|].
  assert (X : exists_ (home_u // ".config/Cursor") w = inr false)
    by (vm_compute; reflexivity).
  split; [exact X|].
  destruct (creation_is_never_skipped (W := MemOS.world) "Linux" home_u []
              paths w eq_refl) as [M _].
  rewrite (M (home_u // ".config/Cursor/machineid")) by (left; reflexivity).
  change (parent (home_u // ".config/Cursor/machineid"))
    with (home_u // ".config/Cursor").
  rewrite X; reflexivity.
Defined.

Lemma print_all_returns (l : list message) : print_all l = (l, inr tt).
Proof.
  induction l as [|m l IH]; [reflexivity|].
  cbn [print_all]. unfold print.
  cbv beta iota delta [bind Monad_Py py_bind]. rewrite IH. reflexivity.
Qed.

Lemma get_os_paths_returns (system : string) (home : Path) :
  exists out found, get_os_paths system home = (out, inr found) /\
                    (found = None -> out = [Line ("Unsupported OS: " ++ system)]).
Proof.
  unfold get_os_paths.
  destruct (system =? "Windows");
    [|destruct (system =? "Darwin"); [|destruct (system =? "Linux")]];
    do 2 eexists; (split; [reflexivity|]); intros E;
      try discriminate E; reflexivity.
Qed.

Section RunFacts.

Context {W : Type} `{OS W}.

(** X10: without the answer [y] the run changes nothing: when the user
    declines, or the input is closed, or the system is none of the
    three, [reset_cursor] returns the world it was given (and on an
    unsupported system it prints the one line saying so). *)
Theorem reset_cursor_needs_confirmation
    (home : Path) (system : string) (answer : option string) (w : W) :
  (answer <> Some "y" ->
   exists out, reset_cursor home system answer w = (w, (out, inr tt))) /\
  (system <> "Windows" -> system <> "Darwin" -> system <> "Linux" ->
   reset_cursor home system answer w
   = (w, ([Line ("Unsupported OS: " ++ system)], inr tt))).
Proof.
  split.
  - intros N. unfold reset_cursor, lift_py.
    cbv beta iota delta [bind ret Monad_M m_bind].
    destruct (get_os_paths_returns system home) as [o [found [G _]]].
    rewrite G; cbv beta iota zeta.
    destruct found as [paths|]; [|eexists; reflexivity].
    rewrite print_all_returns; cbv beta iota zeta.
    destruct answer as [choice|].
    + destruct (String.eqb_spec choice "y") as [->|Ne];
        [contradiction N; reflexivity|].
      cbv beta iota zeta delta [negb print]. eexists; reflexivity.
    + cbv beta iota zeta delta [print]. eexists; reflexivity.
  - intros N1 N2 N3. unfold reset_cursor, lift_py, get_os_paths.
    apply String.eqb_neq in N1, N2, N3. rewrite N1, N2, N3.
    reflexivity.
Qed.

End RunFacts.

Lemma reset_cursor_needs_confirmation_witness :
  Some "n" <> Some "y" /\
  (exists out,
      reset_cursor home_u "Linux" (Some "n") sample_world
      = (sample_world, (out, inr tt))) /\
  "FreeBSD" <> "Windows" /\ "FreeBSD" <> "Darwin" /\ "FreeBSD" <> "Linux" /\
  reset_cursor home_u "FreeBSD" (Some "y") sample_world
  = (sample_world, ([Line "Unsupported OS: FreeBSD"], inr tt)).
Proof.
  split; [discriminate|]. split.
  - apply (reset_cursor_needs_confirmation (W := MemOS.world)); discriminate.
  - split; [discriminate|]. split; [discriminate|]. split; [discriminate|].
    apply (reset_cursor_needs_confirmation (W := MemOS.world) home_u
             "FreeBSD" (Some "y") sample_world); discriminate.
Defined.

Section Completion.

Context {W : Type} `{OS W}.

Lemma create_file_with_content_returns
    (path : Path) (content description : string) (w : W) :
  exists w' m,
    create_file_with_content path content description w
    = (w', ([m], inr tt)) /\
    (m = Created description path \/
     exists e, m = creation_report description path e).
Proof.
  rewrite create_file_with_content_steps.
  destruct (mkdir_parents (parent path) w) as [w1 [e|u]].
  - do 2 eexists; split; [reflexivity | right; eexists; reflexivity].
  - destruct (write_text path content w1) as [w2 [e|u']].
    + do 2 eexists; split; [reflexivity | right; eexists; reflexivity].
    + do 2 eexists; split; [reflexivity | left; reflexivity].
Qed.

Lemma create_new_trial_info_returns (path : Path) (w : W) :
  exists w' m,
    create_new_trial_info path w = (w', ([m], inr tt)) /\
    (m = Created "Created new trial info" path \/
     (exists e, m = creation_report "Created new trial info" path e) \/
     (exists e, m = Failed_trial_info path e /\
                exists w0, new_trial_data w = (w0, ([], inl e)) /\ w' = w0)).
Proof.
  unfold create_new_trial_info, m_try_except.
  cbv beta iota delta [bind ret Monad_M m_bind].
  assert (N : exists w0 r, new_trial_data w = (w0, ([], r))).
  { rewrite new_trial_data_steps.
    destruct (clock_ns w) as [w1 ns]; cbv zeta.
    destruct (datetime_add_days _ 90); [eauto|].
    destruct (int_times_1000 _); [eauto|].
    destruct (int_times_1000 _); [eauto|].
    destruct (urandom 16 w1) as [w2 b].
    destruct (uuid.UUID_bytes_version4 b); eauto. }
  destruct N as [w0 [r N]]. rewrite N; cbv beta iota zeta.
  destruct r as [e|d].
  - cbn [find_handler]. rewrite isinstance_Exception.
    unfold lift_py, print; cbv beta iota zeta.
    do 2 eexists; split; [reflexivity|].
    right; right; exists e; split; [reflexivity|].
    exists w0; split; reflexivity.
  - destruct (create_file_with_content_returns path (json_dumps_indent4 d)
                "Created new trial info" w0) as [w1 [m [C D]]].
    rewrite C; cbv beta iota zeta.
    do 2 eexists; split; [reflexivity|].
    destruct D as [->|D]; [left; reflexivity | right; left; exact D].
Qed.

(** With a random source that gives as many bytes as it is asked for,
    [uuid4] returns. *)
Lemma uuid4_returns (w : W) :
  (forall n w, List.length (snd (urandom n w)) = n) ->
  exists w' u, uuid4 w = (w', ([], inr u)).
Proof.
  intros L; unfold uuid4, mutate, lift_py, lift_result.
  cbv beta iota delta [bind ret Monad_M m_bind ok].
  pose proof (L 16%nat w) as L16.
  destruct (urandom 16 w) as [w1 b]; cbn [snd] in L16; cbv beta iota zeta.
  unfold uuid.UUID_bytes_version4. rewrite L16; cbn [Nat.eqb negb].
  do 2 eexists; reflexivity.
Qed.

Lemma create_new_machine_id_returns (path : Path) (w : W) :
  (forall n w, List.length (snd (urandom n w)) = n) ->
  exists w' out, create_new_machine_id path w = (w', (out, inr tt)).
Proof.
  intros L; unfold create_new_machine_id.
  cbv beta iota delta [bind ret Monad_M m_bind].
  destruct (uuid4_returns w L) as [w1 [u U]]. rewrite U; cbv beta iota zeta.
  destruct (create_file_with_content_returns path (uuid.str u)
              "Created new machine ID" w1) as [w2 [m [C _]]].
  rewrite C; eauto.
Qed.

Lemma never_raises_bind {A B} (c : M W A) (k : A -> M W B) :
  never_raises c -> (forall a, never_raises (k a)) ->
  never_raises (bind c k).
Proof.
  intros C K w. cbn [bind Monad_M]. unfold m_bind.
  destruct (C w) as [w1 [o1 [a ->]]].
  destruct (K a w1) as [w2 [o2 [b ->]]]. eauto.
Qed.

Lemma never_raises_print (m : message) :
  never_raises (lift_py (print m) : M W unit).
Proof. intros w; unfold lift_py, print; eauto. Qed.

Lemma never_raises_create_new_trial_info (path : Path) :
  never_raises (create_new_trial_info path).
Proof.
  intros w.
  destruct (create_new_trial_info_returns path w) as [w' [m [-> _]]]. eauto.
Qed.

Lemma never_raises_create_new_machine_id (path : Path) :
  (forall n w, List.length (snd (urandom n w)) = n) ->
  never_raises (create_new_machine_id path).
Proof.
  intros L w.
  destruct (create_new_machine_id_returns path w L) as [w' [o ->]]. eauto.
Qed.

Lemma raises_only_never {A} (P : W -> exn -> Prop) (c : M W A) :
  never_raises c -> raises_only P c.
Proof.
  intros C w. destruct (C w) as [w' [o [a ->]]].
  exists w', o, (inr a); split; [reflexivity | exact I].
Qed.

Lemma raises_only_bind {A B} (P : W -> exn -> Prop) (c : M W A)
    (k : A -> M W B) :
  raises_only P c -> (forall a, raises_only P (k a)) ->
  raises_only P (bind c k).
Proof.
  intros C K w. cbn [bind Monad_M]. unfold m_bind.
  destruct (C w) as [w1 [o1 [[e|a] [-> R]]]].
  - exists w1, o1, (inl e); split; [reflexivity | exact R].
  - destruct (K a w1) as [w2 [o2 [r [-> R2]]]].
    do 3 eexists; split; [reflexivity | exact R2].
Qed.

Lemma raises_only_for_each {A} (P : W -> exn -> Prop) (l : list A)
    (body : A -> M W unit) :
  (forall x, In x l -> raises_only P (body x)) ->
  raises_only P (for_each l body).
Proof.
  induction l as [|x l IH]; intros B; cbn [for_each].
  - apply raises_only_never. intros w; cbn; eauto.
  - apply raises_only_bind; [apply B; left; reflexivity|].
    intros _; apply IH; intros y I; apply B; right; exact I.
Qed.

(** [remove_path] raises only what its existence test raises. *)
Lemma raises_only_remove_path (l : list Path) (p home : Path)
    (bases : list string) :
  In p l -> raises_only (raised_by_exists l) (remove_path p home bases).
Proof.
  intros I w.
  destruct (remove_path_cases p home bases w)
    as [[_ R] | [[e [X R]] | [_ [w' [m [o [R _]]]]]]]; rewrite R;
    do 3 eexists; (split; [reflexivity|]); try exact Logic.I.
  exists p; split; [exact I | exact X].
Qed.

(** So does the test of the parent of a file to create. *)
Lemma raises_only_parent_is_reasonable (l : list Path) (path : Path)
    (paths : os_paths) :
  In (parent path) l ->
  raises_only (raised_by_exists l) (parent_is_reasonable path paths).
Proof.
  intros I w. unfold parent_is_reasonable, test.
  cbv beta iota delta [bind ret Monad_M m_bind].
  destruct (exists_ (parent path) w) as [e|[|]] eqn:X; cbv beta iota zeta;
    do 3 eexists; (split; [reflexivity|]); try exact Logic.I.
  exists (parent path); split; [exact I | exact X].
Qed.

Lemma raises_only_deletion_phase (home : Path) (paths : os_paths) :
  raises_only (raised_by_exists (tested_paths paths))
    (deletion_phase home paths).
Proof.
  unfold deletion_phase, tested_paths.
  repeat first
    [ apply raises_only_bind; [|intros _]
    | apply raises_only_never, never_raises_print
    | apply raises_only_for_each; intros p I; apply raises_only_remove_path;
      rewrite !in_app_iff; tauto ].
Qed.

Lemma raises_only_creation_phase (paths : os_paths) :
  (forall n w, List.length (snd (urandom n w)) = n) ->
  raises_only (raised_by_exists (tested_paths paths)) (creation_phase paths).
Proof.
  intros L; unfold creation_phase.
  apply raises_only_bind;
    [apply raises_only_never, never_raises_print|]; intros _.
  apply raises_only_bind;
    [apply raises_only_never, never_raises_print|]; intros _.
  apply raises_only_bind.
  - destruct (machine_id_files paths) as [|f fs] eqn:E;
      [apply raises_only_never, never_raises_print|].
    apply raises_only_for_each; intros path I.
    apply raises_only_bind.
    + apply raises_only_parent_is_reasonable. unfold tested_paths.
      rewrite E, !in_app_iff. do 3 right; left.
      apply in_map; exact I.
    + intros [|]; apply raises_only_never;
        [apply never_raises_create_new_machine_id; exact L
        | apply never_raises_print].
  - intros _. destruct (trial_file paths) as [path|] eqn:E;
      [|apply raises_only_never, never_raises_print].
    apply raises_only_bind.
    + apply raises_only_parent_is_reasonable. unfold tested_paths.
      rewrite E, !in_app_iff. do 4 right. left; reflexivity.
    + intros [|]; apply raises_only_never;
        [apply never_raises_create_new_trial_info
        | apply never_raises_print].
Qed.

(** X12: a confirmed run on a supported system stops early for one
    reason only.  Whatever fails while candidates are deleted or files
    are created is caught and reported, and the run goes on to the
    completion notice, its last lines; unless an existence test of the
    run raises (that of a candidate on line 61, or of the parent of a
    file to create on lines 323 and 332): then [reset_cursor] raises
    that exception, in the world of that test.  (The random source is
    assumed to give the sixteen bytes it is asked for.) *)
Theorem reset_cursor_runs_to_completion
    (home : Path) (system : string) (o : list message) (paths : os_paths)
    (w : W) :
  (forall n w, List.length (snd (urandom n w)) = n) ->
  get_os_paths system home = (o, inr (Some paths)) ->
  exists w' out r,
    reset_cursor home system (Some "y") w = (w', (out, r)) /\
    match r with
    | inr _ => exists out0, out = (out0 ++ completion_lines)%list
    | inl e => raised_by_exists (tested_paths paths) w' e
    end.
Proof.
  intros L G. unfold reset_cursor.
  cbv beta iota delta [bind ret Monad_M m_bind lift_py].
  rewrite G; cbv beta iota zeta.
  rewrite !print_all_returns; cbv beta iota zeta.
  change (negb ("y" =? "y")) with false; cbv beta iota zeta.
  unfold print at 1; cbv beta iota zeta.
  destruct (raises_only_deletion_phase home paths w)
    as [w1 [o1 [[e|[]] [-> R1]]]]; cbv beta iota zeta.
  - do 3 eexists; split; [reflexivity | exact R1].
  - destruct (raises_only_creation_phase paths L w1)
      as [w2 [o2 [[e|[]] [-> R2]]]]; cbv beta iota zeta.
    + do 3 eexists; split; [reflexivity | exact R2].
    + do 3 eexists; split; [reflexivity|].
      eexists. rewrite !app_assoc. reflexivity.
Qed.

(** X11: [create_new_trial_info] never raises and always prints exactly
    one line: the creation, the failure of the directory or of the
    write, or the failure to build the record (which is then not
    written). *)
Theorem create_new_trial_info_reports_once (path : Path) (w : W) :
  exists w' m,
    create_new_trial_info path w = (w', ([m], inr tt)) /\
    (m = Created "Created new trial info" path \/
     (exists e, m = creation_report "Created new trial info" path e) \/
     (exists e, m = Failed_trial_info path e /\
                exists w0, new_trial_data w = (w0, ([], inl e)) /\ w' = w0)).
Proof. exact (create_new_trial_info_returns path w). Qed.

End Completion.

Lemma take_bytes_length (n : nat) (l : list byte) :
  List.length (fst (MemOS.take_bytes n l)) = n.
Proof.
  revert l; induction n as [|n IH]; intros l; [reflexivity|].
  cbn [MemOS.take_bytes]. destruct l as [|x l].
  - specialize (IH []). destruct (MemOS.take_bytes n []); simpl in *; congruence.
  - specialize (IH l). destruct (MemOS.take_bytes n l); simpl in *; congruence.
Qed.

Lemma mem_urandom_length (n : nat) (w : MemOS.world) :
  List.length (snd (urandom n w)) = n.
Proof.
  cbn [urandom MemOS.MemOS_OS]. unfold MemOS.mem_urandom.
  pose proof (take_bytes_length n (MemOS.entropy w)) as L.
  destruct (MemOS.take_bytes n (MemOS.entropy w)); exact L.
Qed.

Lemma reset_cursor_runs_to_completion_witness :
  (forall n (w : MemOS.world), List.length (snd (urandom n w)) = n) /\
  get_os_paths "Linux" home_u = ([], inr (Some (linux_paths home_u))) /\
  exists w' out r,
    reset_cursor home_u "Linux" (Some "y") sample_world = (w', (out, r)) /\
    match r with
    | inr _ => exists out0, out = (out0 ++ completion_lines)%list
    | inl e => raised_by_exists (tested_paths (linux_paths home_u)) w' e
    end.
Proof.
  split; [exact mem_urandom_length|]. split; [reflexivity|].
  apply (reset_cursor_runs_to_completion (W := MemOS.world) home_u "Linux" []
           (linux_paths home_u) sample_world mem_urandom_length eq_refl).
Defined.

(** The same run with [~/.config] closed to searching: it stops at the
    first candidate, before anything is deleted, with the error of the
    existence test. *)
Example reset_cursor_locked_run :
  let '(w, (out, r)) :=
    reset_cursor home_u "Linux" (Some "y") locked_world in
  w = locked_world /\
  r = inl (mkExn PermissionError "Permission denied") /\
  last out (Line "") = Line "--- Removing Configuration Directories ---".
Proof. vm_compute. repeat split. Qed.

(** A whole confirmed run on the sample world: the configuration
    directory is removed and made anew with the two identifier files;
    the protected cache directory is reported; what the tables do not
    list is still there. *)
Example reset_cursor_sample_run :
  let '(w, (out, r)) := reset_cursor home_u "Linux" (Some "y") sample_world in
  r = inr tt /\
  filter (fun m => match m with Line _ => false | _ => true end) out
  = [ Deleted_directory (home_u // ".config/Cursor");
      Permission_denied_deleting (home_u // ".cache/Cursor");
      Deleted_file (home_u // ".cursor-machine-id");
      Created "Created new machine ID" (home_u // ".config/Cursor/machineid");
      Created "Created new trial info"
        (home_u // ".config/Cursor/trial_info.json") ] /\
  read_text (home_u // ".config/Cursor/machineid") w
  = Some "01020304-0506-4708-890a-0b0c0d0e0f10" /\
  read_text (home_u // "notes/todo.txt") w = Some "keep" /\
  exists_ (home_u // ".config/Cursor/storage.json") w = inr false.
Proof. vm_compute. repeat split. Qed.

(* ------------------------------------------------------------------ *)
(** * More on the trial record *)
(* ------------------------------------------------------------------ *)

(** In a time zone that keeps one offset from UTC, [_mktime] is the wall
    clock less the offset. *)
Lemma mktime_fixed_offset (local : Z -> Z) (c : Z) (d : datetime) :
  (forall u, local u = (u + c)%Z) ->
  datetime_mktime local d = (wall d - c)%Z.
Proof.
  intros L; unfold datetime_mktime.
  rewrite !L.
  replace (wall d + c - wall d)%Z with c by lia.
  replace (wall d - c + c =? wall d)%Z with true
    by (symmetry; apply Z.eqb_eq; lia).
  match goal with
  | |- context [(c =? ?b)%Z] =>
      replace (c =? b)%Z with true by (symmetry; apply Z.eqb_eq; lia)
  end.
  reflexivity.
Qed.

Section TrialWindow.

Context {W : Type} `{OS W}.

(** X13: in a time zone that keeps one offset from UTC, a record created
    between 2004-11-03 19:53:48 and 2037-10-21 03:14:06 UTC has an end
    timestamp of exactly its start timestamp plus 7,776,000,000
    milliseconds, and its start timestamp is 1000 times the second of
    the system clock plus a part below that depends on the microsecond
    of the clock alone. *)
Theorem trial_window_fixed_offset
    (w w' : W) (out : list message) (d : trial_data) (c : Z) :
  new_trial_data w = (w', (out, inr d)) ->
  (forall u, localtime u (fst (clock_ns w)) = (u + c)%Z) ->
  let ns := snd (clock_ns w) in
  (1099511628 <= ns / 1000000000 <= 2139707646)%Z ->
  trialStartTimestamp d
  = (1000 * (ns / 1000000000) + frac_ms (ns mod 1000000000 / 1000))%Z /\
  trialEndTimestamp d = (trialStartTimestamp d + 7776000000)%Z.
Proof.
  intros E L ns R. subst ns.
  rewrite new_trial_data_steps in E.
  destruct (clock_ns w) as [w1 ns].
  change (fst (w1, ns)) with w1 in *; change (snd (w1, ns)) with ns in *.
  cbv zeta in E.
  set (s := (ns / 1000000000)%Z) in *.
  set (local := fun u => localtime u w1) in *.
  set (now := datetime_of_clock local ns) in *.
  assert (Lc : forall u, local u = (u + c)%Z) by exact L.
  assert (Wn : wall now = (s + c)%Z)
    by (unfold now, datetime_of_clock; cbn [wall]; apply Lc).
  assert (Un : microsecond now = (ns mod 1000000000 / 1000)%Z) by reflexivity.
  pose proof (microsecond_of_clock local ns) as Us; fold now in Us.
  destruct (datetime_add_days now 90) as [e|future_date] eqn:Ad;
    [discriminate E|].
  assert (F : wall future_date = (wall now + 90 * 86400)%Z /\
              microsecond future_date = microsecond now).
  { unfold datetime_add_days in Ad.
    destruct (_ && _)%bool; inversion Ad; split; reflexivity. }
  destruct F as [Fw Fu].
  unfold datetime_timestamp in E.
  rewrite !(mktime_fixed_offset local c) in E by exact Lc.
  rewrite Fw, Fu, Wn, Un in E.
  replace (s + c - c)%Z with s in E by lia.
  replace (s + c + 90 * 86400 - c)%Z with (s + 7776000)%Z in E by lia.
  rewrite Un in Us.
  rewrite !Float64Facts.int_times_1000_timestamp in E by lia.
  assert (A : (1000 * (s + 7776000) = 1000 * s + 7776000000)%Z) by ring.
  revert A E. generalize (1000 * (s + 7776000))%Z (1000 * s)%Z.
  intros hi lo A E.
  destruct (urandom 16 w1) as [w2 b].
  destruct (uuid.UUID_bytes_version4 b) as [e|u]; [discriminate E|].
  injection E as _ _ <-. cbn [trialStartTimestamp trialEndTimestamp].
  split; [reflexivity | lia].
Qed.

End TrialWindow.

Lemma trial_window_fixed_offset_witness :
  let r := new_trial_data sample_world in
  let d := {| trialStartTimestamp := 1700000000123;
              trialEndTimestamp := 1707776000123;
              hasUsedTrial := false;
              machineId := "01020304-0506-4708-890a-0b0c0d0e0f10" |} in
  r = (fst r, (fst (snd r), inr d)) /\
  (forall u, localtime u (fst (clock_ns sample_world)) = (u + 0)%Z) /\
  trialStartTimestamp d = (1000 * 1700000000 + frac_ms 123456)%Z /\
  trialEndTimestamp d = (trialStartTimestamp d + 7776000000)%Z.
Proof.
  intros r d.
  assert (E : r = (fst r, (fst (snd r), inr d))) by (vm_compute; reflexivity).
  assert (L : forall u, localtime u (fst (clock_ns sample_world)) = (u + 0)%Z)
    by reflexivity.
  split; [exact E|]. split; [exact L|].
  apply (trial_window_fixed_offset (W := MemOS.world) sample_world _ _ d 0 E L).
  vm_compute. split; intro; discriminate.
Defined.
(* ------------------------------------------------------------------ *)
(** * The text of a machine identifier *)
(* ------------------------------------------------------------------ *)

Module UuidFacts.
Import uuid.

Lemma length_append (a b : string) :
  String.length (a ++ b) = String.length a + String.length b.
Proof. induction a as [|c a IH]; simpl; congruence. Qed.

Lemma length_substring (s : string) (n m : nat) :
  n + m <= String.length s -> String.length (substring n m s) = m.
Proof.
  revert n m; induction s as [|c s IH]; intros n m L; simpl in L.
  - assert (n = 0) by lia; assert (m = 0) by lia; subst; reflexivity.
  - destruct n as [|n]; simpl.
    + destruct m as [|m]; [reflexivity|].
      simpl. rewrite IH by lia. reflexivity.
    + apply IH; lia.
Qed.

Lemma hex_digits_length (n : nat) (x : Z) :
  String.length (hex_digits n x) = n.
Proof.
  revert x; induction n as [|n IH]; intros x; [reflexivity|].
  cbn [hex_digits]. rewrite length_append, IH. simpl; lia.
Qed.

(** The digit at offset [i] of [n] digits is the one of weight
    [16 ^ (n - 1 - i)]. *)
Lemma hex_digits_get (n i : nat) (x : Z) :
  i < n ->
  get i (hex_digits n x)
  = Some (hex_digit ((x / 16 ^ Z.of_nat (n - 1 - i)) mod 16)%Z).
Proof.
  revert x; induction n as [|n IH]; intros x L; [lia|].
  cbn [hex_digits].
  destruct (Nat.eq_dec i n) as [->|Ne].
  - replace (S n - 1 - n) with 0 by lia.
    change (16 ^ Z.of_nat 0)%Z with 1%Z. rewrite Z.div_1_r.
    pose proof (append_correct2 (hex_digits n (x / 16))
                  (String (hex_digit (x mod 16)) "") 0) as A.
    rewrite hex_digits_length in A. simpl in A. symmetry; exact A.
  - rewrite <- append_correct1 by (rewrite hex_digits_length; lia).
    rewrite IH by lia.
    replace (S n - 1 - i) with (S (n - 1 - i)) by lia.
    rewrite Nat2Z.inj_succ, Z.pow_succ_r by lia.
    rewrite Z.div_div by lia. reflexivity.
Qed.

(** A nibble of an integer, by its bits. *)
Lemma nibble_bits (x : Z) (k : nat) :
  ((x / 16 ^ Z.of_nat k) mod 16
   = Z.land (Z.shiftr x (4 * Z.of_nat k)) 15)%Z.
Proof.
  change 15%Z with (Z.ones 4). rewrite Z.land_ones by lia.
  rewrite Z.shiftr_div_pow2 by lia.
  rewrite Z.pow_mul_r by lia. reflexivity.
Qed.

Ltac bit_by_bit n :=
  repeat first
    [ rewrite Z.land_spec | rewrite Z.lor_spec
    | rewrite Z.shiftr_spec by lia | rewrite Z.lnot_spec by lia
    | rewrite Z.shiftl_spec by lia ];
  let C := fresh "C" in
  assert (C : (n = 0 \/ n = 1 \/ n = 2 \/ n = 3 \/ 4 <= n)%Z) by lia;
  destruct C as [-> | [-> | [-> | [-> | C]]]];
  [ .. | rewrite ?(Z.bits_above_log2 15 n), ?(Z.bits_above_log2 4 n),
           ?(Z.bits_above_log2 8 n), ?(Z.bits_above_log2 3 n)
           by (simpl; lia);
         rewrite ?andb_false_r; reflexivity ];
  repeat match goal with
         | |- context [Z.testbit ?z (?i + ?k)] =>
             is_var z; generalize (Z.testbit z (i + k)); intro
         end;
  vm_compute;
  repeat match goal with t : bool |- _ => destruct t end; reflexivity.

(** The four version bits of a UUID made by [UUID(bytes=b, version=4)]
    are [0100]. *)
Lemma version_nibble (b : list byte) (u : Z) :
  UUID_bytes_version4 b = inr u ->
  Z.land (Z.shiftr u 76) 15 = 4%Z.
Proof.
  unfold UUID_bytes_version4.
  destruct (negb _); [discriminate|].
  cbv zeta; unfold ok; intros E; injection E as <-.
  generalize (int_from_bytes b); intros z.
  apply Z.bits_inj'; intros n Hn.
  bit_by_bit n.
Qed.

(** Its two variant bits are [10]. *)
Lemma variant_nibble (b : list byte) (u : Z) :
  UUID_bytes_version4 b = inr u ->
  exists r, (0 <= r < 4)%Z /\ Z.land (Z.shiftr u 60) 15 = (8 + r)%Z.
Proof.
  unfold UUID_bytes_version4.
  destruct (negb _); [discriminate|].
  cbv zeta; unfold ok; intros E; injection E as <-.
  generalize (int_from_bytes b); intros z.
  exists (Z.land (Z.shiftr z 60) 3); split.
  - change 3%Z with (Z.ones 2). rewrite Z.land_ones by lia.
    apply Z.mod_pos_bound; lia.
  - match goal with
    | |- ?l = _ =>
        assert (B : l = Z.lor 8 (Z.land (Z.shiftr z 60) 3))
    end.
    { apply Z.bits_inj'; intros n Hn. bit_by_bit n. }
    rewrite B.
    assert (R : (0 <= Z.land (Z.shiftr z 60) 3 < 4)%Z).
    { change 3%Z with (Z.ones 2). rewrite Z.land_ones by lia.
      apply Z.mod_pos_bound; lia. }
    revert R; generalize (Z.land (Z.shiftr z 60) 3); intros r R.
    assert (C : (r = 0 \/ r = 1 \/ r = 2 \/ r = 3)%Z) by lia.
    destruct C as [-> | [-> | [-> | ->]]]; reflexivity.
Qed.

End UuidFacts.

Section MachineId.

Context {W : Type} `{OS W}.

(** X14: the identifier made by [uuid.uuid4()] is written as 36
    characters, with dashes after the 8th, 12th, 16th and 20th digit;
    the digit after the second dash is [4] and the digit after the third
    is one of [8], [9], [a] and [b], whatever bytes the random source
    gave. *)
Theorem uuid4_text_shape (w w' : W) (out : list message) (u : Z) :
  uuid4 w = (w', (out, inr u)) ->
  let s := uuid.str u in
  String.length s = 36 /\
  get 8 s = Some "-"%char /\ get 13 s = Some "-"%char /\
  get 18 s = Some "-"%char /\ get 23 s = Some "-"%char /\
  get 14 s = Some "4"%char /\
  exists c, get 19 s = Some c /\ In c ["8"; "9"; "a"; "b"]%char.
Proof.
  intros E s.
  assert (B : exists b, uuid.UUID_bytes_version4 b = inr u).
  { unfold uuid4, mutate, lift_py, lift_result in E.
    cbv beta iota delta [bind ret Monad_M m_bind] in E.
    destruct (urandom 16 w) as [w1 b]. exists b.
    unfold ok in E; cbv beta iota in E. congruence. }
  destruct B as [b B].
  pose proof (UuidFacts.hex_digits_length 32 u) as L.
  pose proof (UuidFacts.hex_digits_get 32 12 u ltac:(lia)) as G12.
  pose proof (UuidFacts.hex_digits_get 32 16 u ltac:(lia)) as G16.
  rewrite UuidFacts.nibble_bits in G12, G16.
  change (4 * Z.of_nat (32 - 1 - 12))%Z with 76%Z in G12.
  change (4 * Z.of_nat (32 - 1 - 16))%Z with 60%Z in G16.
  rewrite (UuidFacts.version_nibble b u B) in G12.
  destruct (UuidFacts.variant_nibble b u B) as [r [R V]].
  rewrite V in G16.
  assert (G16' : exists c, get 16 (uuid.hex_digits 32 u) = Some c /\
                           In c ["8"; "9"; "a"; "b"]%char).
  { exists (uuid.hex_digit (8 + r)); split; [exact G16|].
    assert (C : (r = 0 \/ r = 1 \/ r = 2 \/ r = 3)%Z) by lia.
    destruct C as [-> | [-> | [-> | ->]]]; simpl; auto. }
  clear G16 V R r.
  change (uuid.hex_digit 4) with "4"%char in G12.
  subst s; unfold uuid.str, uuid.format_032x.
  revert L G12 G16'. generalize (uuid.hex_digits 32 u); intros hex L G12 G16.
  do 32 (destruct hex as [|? hex]; [discriminate L|]).
  destruct hex; [|discriminate L].
  cbn in G12, G16 |- *.
  repeat split; try reflexivity; assumption.
Qed.

End MachineId.

Lemma uuid4_text_shape_witness :
  let r := uuid4 sample_world in
  let u := 1339673755198460589722857001376943888%Z in
  r = (fst r, ([], inr u)) /\
  String.length (uuid.str u) = 36 /\ get 14 (uuid.str u) = Some "4"%char.
Proof.
  intros r u.
  assert (E : r = (fst r, ([], inr u))) by (vm_compute; reflexivity).
  split; [exact E|].
  destruct (uuid4_text_shape (W := MemOS.world) _ _ _ _ E)
    as [L [_ [_ [_ [_ [V _]]]]]].
  split; [exact L | exact V].
Defined.
